(** * Media port of the SIP bridge: a shallow embedding of
      [pkg/sip/media_port.go] and the properties checked against it.

    The Go code is translated function by function.  Shared mutable state
    (the [MediaPort] struct and the objects it points to) is threaded
    explicitly; the long-running goroutines ([rtpLoop], [rtpReadLoop],
    [timeoutLoop]) are functions of the sequence of answers they get from
    their blocking calls.  A nil dereference is a [Panicked] outcome. *)

From Stdlib Require Import ZArith Lia Bool List.
From stdpp Require Import base option list strings.
Import ListNotations.

Local Open Scope string_scope.
Local Open Scope list_scope.
Local Open Scope Z_scope.

(** ** Go scalars *)

(** [atomic.Uint64.Add]: unsigned 64-bit addition wraps. *)
Definition uint64_add (x d : Z) : Z := (x + d) mod 2 ^ 64.

(** [errorCnt++] on a Go [int] (64-bit two's complement). *)
Definition int_incr (x : Z) : Z := (x + 1 + 2 ^ 63) mod 2 ^ 64 - 2 ^ 63.

Definition bytes : Type := list Byte.byte.

(** [len(b)] *)
Definition len {A : Type} (b : list A) : Z := Z.of_nat (length b).

(** ** Errors *)

Inductive error : Type :=
| io_EOF
| net_ErrClosed
| errors_New (msg : string)
| fmt_Errorf (msg : string) (cause : error).

#[global] Instance error_eq_dec : EqDecision error.
Proof. solve_decision. Defined.

(** [err.Error()] *)
Fixpoint Error (e : error) : string :=
  match e with
  | io_EOF => "EOF"
  | net_ErrClosed => "use of closed network connection"
  | errors_New msg => msg
  | fmt_Errorf msg cause => String.append msg (String.append ": " (Error cause))
  end.

(** [errors.Is(err, net.ErrClosed)] walks the chain of wrapped errors. *)
Fixpoint is_net_ErrClosed (e : error) : bool :=
  match e with
  | net_ErrClosed => true
  | fmt_Errorf _ cause => is_net_ErrClosed cause
  | _ => false
  end.

(** [strings.Contains(s, sub)] *)
Definition strings_Contains (s sub : string) : bool :=
  match String.index 0 sub s with Some _ => true | None => false end.

(** The error of [SetConfig] and [setupOutput] on a closed port. *)
Definition errMediaClosed : error := errors_New "media is already closed".

(** ** [net/netip] *)

Inductive Addr : Type :=
| AddrZero
| Addr4 (a b c d : Z)
| Addr6 (hi lo : Z) (zone : string).

#[global] Instance Addr_eq_dec : EqDecision Addr.
Proof. solve_decision. Defined.

Definition Addr_IsValid (ip : Addr) : bool :=
  match ip with AddrZero => false | _ => true end.

Record AddrPort : Type := mkAddrPort { ap_ip : Addr; ap_port : Z }.

#[global] Instance AddrPort_eq_dec : EqDecision AddrPort.
Proof. solve_decision. Defined.

(** [AddrPort.IsValid]: the port may be zero, the address may not. *)
Definition AddrPort_IsValid (a : AddrPort) : bool := Addr_IsValid (ap_ip a).

(** ** [time] *)

(** Instants and durations in nanoseconds. *)
Definition Time : Type := Z.
Definition Duration : Type := Z.

Definition Second : Duration := 1000000000.
Definition maxDuration : Duration := 2 ^ 63 - 1.
Definition minDuration : Duration := - 2 ^ 63.

(** The zero [time.Time] (January 1, year 1), relative to the Unix epoch. *)
Definition zeroTime : Time := -62135596800 * Second.

(** [t.Sub(u)] saturates at the ends of [Duration]. *)
Definition Time_Sub (t u : Time) : Duration :=
  Z.max minDuration (Z.min maxDuration (t - u)).

(** [time.Since(t)], with the clock reading made explicit. *)
Definition time_Since (now t : Time) : Duration := Time_Sub now t.

(** ** Logging *)

(** [rtp.Header], the fields the port looks at or logs. *)
Record Header : Type := mkHeader {
  PayloadType : Z;
  SequenceNumber : Z;
  Timestamp : Z;
  SSRC : Z
}.

Inductive Level : Type := Debug | Info | Warn | Err.

Inductive LogValue : Type :=
| VStr (s : string)
| VInt (z : Z)
| VAddr (a : AddrPort)
| VErr (e : option error)
| VDur (d : Duration)
| VHeader (h : Header).

Record LogEntry : Type := mkLog {
  level : Level;
  message : string;
  fields : list (string * LogValue)
}.

(** ** Media objects of the external libraries, kept symbolic *)

(** [rtp.AudioCodec]: what [Info()] returns. *)
Record AudioCodec : Type := mkCodec { SDPName : string; RTPClockRate : Z }.

(** [srtp.Config] *)
Record CryptoConfig : Type := mkCrypto { Profile : string; Keys : bytes }.

Record AudioConfig : Type := mkAudio {
  Codec : option AudioCodec;
  Type_ : Z;
  DTMFType : Z
}.

(** [msdk.PCM16Processor] is a function on writers; processors are named. *)
Definition PCM16Processor : Type := nat.

Record MediaConf : Type := mkConf {
  Audio : AudioConfig;
  Remote : AddrPort;
  Crypto : option CryptoConfig;
  Processor : option PCM16Processor
}.

(** [*rtp.Stream] made by [SeqWriter.NewStream]. *)
Record Stream : Type := mkStream {
  st_sess : nat;
  st_type : Z;
  st_clockRate : Z
}.

Inductive SwitchName : Type := AudioOut | AudioIn.

#[local] Unset Elimination Schemes.

(** [msdk.PCM16Writer] values, by the expression that built them. *)
Inductive PCM16Writer : Type :=
| ExternalWriter (id : nat)
| ProcessedWriter (proc : PCM16Processor) (w : option PCM16Writer)
| EncodeRTP (codec : AudioCodec) (s : Stream)
| MixerInput (out : PCM16Writer) (frameDur : Duration) (k : nat)
| SwitchRef (which : SwitchName).

(** [*msdk.SwitchWriter] *)
Record SwitchWriter : Type := mkSwitch {
  sw_sampleRate : Z;
  sw_target : option PCM16Writer;
  sw_disabled : bool
}.

Inductive Counter : Type := CntMux | CntAudio | CntDTMF.

(** [rtp.Handler] values, by the expression that built them. *)
Inductive Handler : Type :=
| DecodeRTP (codec : AudioCodec) (w : PCM16Writer) (pt : Z)
| DTMFHandlerFunc
| RTPStatsHandler (name : string) (inner : option Handler)
| RTPHandlerCount (inner : Handler) (cnt : Counter)
| Mux (dflt : option Handler) (arms : list (Z * Handler))
| NopCloser (inner : Handler)
| HandleJitter (inner : Handler).
#[local] Set Elimination Schemes.

Definition dtmf_SDPName : string := "telephone-event".
Definition dtmf_SampleRate : Z := 8000.
Definition rtp_DefFrameDur : Duration := 20 * 1000000.

(** Modelled from the spec: [rtp.MTUSize] of the media library, which the
    spec gives as 1500 bytes. *)
Definition rtp_MTUSize : Z := 1500.

(** ** The port *)

Record PortStats : Type := mkStats {
  Streams : Z;
  Packets : Z;
  IgnoredPackets : Z;
  InputPackets : Z;
  MuxPackets : Z;
  MuxBytes : Z;
  AudioPackets : Z;
  AudioBytes : Z;
  DTMFPackets : Z;
  DTMFBytes : Z
}.

Record udpConn : Type := mkUdpConn {
  localPort : Z;                 (* of the socket it wraps *)
  src : option AddrPort;
  dst : option AddrPort;
  conn_closed : bool
}.

Record MediaOptions : Type := mkOpts {
  IP : Addr;
  MediaTimeoutInitial : Duration;
  MediaTimeout : Duration;
  Stats : option PortStats;
  EnableJitterBuffer : bool
}.

Record MediaPort : Type := mkPort {
  opts : MediaOptions;
  externalIP : Addr;
  port : udpConn;
  mediaReceived : bool;          (* core.Fuse, broken or not *)
  packetCount : Z;
  mediaTimeout : bool;           (* the channel, closed or not *)
  timeoutStart : option Time;
  timeoutReset : bool;           (* channel of capacity 1, full or not *)
  closed : bool;                 (* core.Fuse *)
  stats : PortStats;
  dtmfAudioEnabled : bool;
  jitterEnabled : bool;
  conf : option MediaConf;
  sess : option nat;             (* index into the sessions of the world *)
  hnd : option (option Handler); (* atomic.Pointer to an interface value *)
  dtmfOutRTP : option Stream;
  dtmfOutAudio : option PCM16Writer;
  audioOutRTP : option Stream;
  audioOut : SwitchWriter;
  audioIn : SwitchWriter;
  audioInHandler : option Handler;
  dtmfIn : option nat            (* the installed callback, by name *)
}.

(** ** Everything outside the struct that the port acts on *)

Record Session : Type := mkSession {
  s_secure : bool;
  s_closed : bool
}.

Inductive Goroutine : Type :=
| GoTimeoutLoop
| GoRtpLoop (sess : nat)
| GoRtpReadLoop (ssrc : Z) (stream : nat).

Record Datagram : Type := mkDatagram { dg_payload : bytes; dg_to : AddrPort }.

Record DTMFWrite : Type := mkDTMFWrite {
  dw_ctx : nat;
  dw_audio : option PCM16Writer;
  dw_rtp : option Stream;
  dw_ts : Z;
  dw_digits : string
}.

Record HandleCall : Type := mkHandleCall {
  hc_handler : Handler;
  hc_header : Header;
  hc_size : Z
}.

Record World : Type := mkWorld {
  logs : list LogEntry;
  sessions : list Session;
  goroutines : list Goroutine;
  sent : list Datagram;             (* calls of WriteToUDPAddrPort *)
  closedWriters : list PCM16Writer; (* calls of Close on a writer *)
  closedHandlers : list Handler;    (* calls of Close on a handler *)
  dtmfWrites : list DTMFWrite;      (* calls of dtmf.Write *)
  handled : list HandleCall         (* calls of HandleRTP *)
}.

Record State : Type := mkState { mp : MediaPort; world : World }.

(** ** Field updates *)

Definition set_Streams (v : _) (s : PortStats) : PortStats :=
  {| Streams := v; Packets := Packets s; IgnoredPackets := IgnoredPackets s;
     InputPackets := InputPackets s; MuxPackets := MuxPackets s; MuxBytes :=
     MuxBytes s; AudioPackets := AudioPackets s; AudioBytes := AudioBytes s;
     DTMFPackets := DTMFPackets s; DTMFBytes := DTMFBytes s |}.

Definition set_Packets (v : _) (s : PortStats) : PortStats :=
  {| Streams := Streams s; Packets := v; IgnoredPackets := IgnoredPackets s;
     InputPackets := InputPackets s; MuxPackets := MuxPackets s; MuxBytes :=
     MuxBytes s; AudioPackets := AudioPackets s; AudioBytes := AudioBytes s;
     DTMFPackets := DTMFPackets s; DTMFBytes := DTMFBytes s |}.

Definition set_IgnoredPackets (v : _) (s : PortStats) : PortStats :=
  {| Streams := Streams s; Packets := Packets s; IgnoredPackets := v;
     InputPackets := InputPackets s; MuxPackets := MuxPackets s; MuxBytes :=
     MuxBytes s; AudioPackets := AudioPackets s; AudioBytes := AudioBytes s;
     DTMFPackets := DTMFPackets s; DTMFBytes := DTMFBytes s |}.

Definition set_InputPackets (v : _) (s : PortStats) : PortStats :=
  {| Streams := Streams s; Packets := Packets s; IgnoredPackets :=
     IgnoredPackets s; InputPackets := v; MuxPackets := MuxPackets s;
     MuxBytes := MuxBytes s; AudioPackets := AudioPackets s; AudioBytes :=
     AudioBytes s; DTMFPackets := DTMFPackets s; DTMFBytes := DTMFBytes s
     |}.

Definition set_src (v : _) (c : udpConn) : udpConn :=
  {| localPort := localPort c; src := v; dst := dst c;
     conn_closed := conn_closed c |}.

Definition set_dst (v : _) (c : udpConn) : udpConn :=
  {| localPort := localPort c; src := src c; dst := v;
     conn_closed := conn_closed c |}.

Definition set_conn_closed (v : _) (c : udpConn) : udpConn :=
  {| localPort := localPort c; src := src c; dst := dst c;
     conn_closed := v |}.

Definition set_port (v : _) (p : MediaPort) : MediaPort :=
  {| opts := opts p; externalIP := externalIP p; port := v; mediaReceived :=
     mediaReceived p; packetCount := packetCount p; mediaTimeout :=
     mediaTimeout p; timeoutStart := timeoutStart p; timeoutReset :=
     timeoutReset p; closed := closed p; stats := stats p; dtmfAudioEnabled
     := dtmfAudioEnabled p; jitterEnabled := jitterEnabled p; conf := conf
     p; sess := sess p; hnd := hnd p; dtmfOutRTP := dtmfOutRTP p;
     dtmfOutAudio := dtmfOutAudio p; audioOutRTP := audioOutRTP p; audioOut
     := audioOut p; audioIn := audioIn p; audioInHandler := audioInHandler
     p; dtmfIn := dtmfIn p |}.

Definition set_mediaReceived (v : _) (p : MediaPort) : MediaPort :=
  {| opts := opts p; externalIP := externalIP p; port := port p;
     mediaReceived := v; packetCount := packetCount p; mediaTimeout :=
     mediaTimeout p; timeoutStart := timeoutStart p; timeoutReset :=
     timeoutReset p; closed := closed p; stats := stats p; dtmfAudioEnabled
     := dtmfAudioEnabled p; jitterEnabled := jitterEnabled p; conf := conf
     p; sess := sess p; hnd := hnd p; dtmfOutRTP := dtmfOutRTP p;
     dtmfOutAudio := dtmfOutAudio p; audioOutRTP := audioOutRTP p; audioOut
     := audioOut p; audioIn := audioIn p; audioInHandler := audioInHandler
     p; dtmfIn := dtmfIn p |}.

Definition set_packetCount (v : _) (p : MediaPort) : MediaPort :=
  {| opts := opts p; externalIP := externalIP p; port := port p;
     mediaReceived := mediaReceived p; packetCount := v; mediaTimeout :=
     mediaTimeout p; timeoutStart := timeoutStart p; timeoutReset :=
     timeoutReset p; closed := closed p; stats := stats p; dtmfAudioEnabled
     := dtmfAudioEnabled p; jitterEnabled := jitterEnabled p; conf := conf
     p; sess := sess p; hnd := hnd p; dtmfOutRTP := dtmfOutRTP p;
     dtmfOutAudio := dtmfOutAudio p; audioOutRTP := audioOutRTP p; audioOut
     := audioOut p; audioIn := audioIn p; audioInHandler := audioInHandler
     p; dtmfIn := dtmfIn p |}.

Definition set_mediaTimeout (v : _) (p : MediaPort) : MediaPort :=
  {| opts := opts p; externalIP := externalIP p; port := port p;
     mediaReceived := mediaReceived p; packetCount := packetCount p;
     mediaTimeout := v; timeoutStart := timeoutStart p; timeoutReset :=
     timeoutReset p; closed := closed p; stats := stats p; dtmfAudioEnabled
     := dtmfAudioEnabled p; jitterEnabled := jitterEnabled p; conf := conf
     p; sess := sess p; hnd := hnd p; dtmfOutRTP := dtmfOutRTP p;
     dtmfOutAudio := dtmfOutAudio p; audioOutRTP := audioOutRTP p; audioOut
     := audioOut p; audioIn := audioIn p; audioInHandler := audioInHandler
     p; dtmfIn := dtmfIn p |}.

Definition set_timeoutStart (v : _) (p : MediaPort) : MediaPort :=
  {| opts := opts p; externalIP := externalIP p; port := port p;
     mediaReceived := mediaReceived p; packetCount := packetCount p;
     mediaTimeout := mediaTimeout p; timeoutStart := v; timeoutReset :=
     timeoutReset p; closed := closed p; stats := stats p; dtmfAudioEnabled
     := dtmfAudioEnabled p; jitterEnabled := jitterEnabled p; conf := conf
     p; sess := sess p; hnd := hnd p; dtmfOutRTP := dtmfOutRTP p;
     dtmfOutAudio := dtmfOutAudio p; audioOutRTP := audioOutRTP p; audioOut
     := audioOut p; audioIn := audioIn p; audioInHandler := audioInHandler
     p; dtmfIn := dtmfIn p |}.

Definition set_timeoutReset (v : _) (p : MediaPort) : MediaPort :=
  {| opts := opts p; externalIP := externalIP p; port := port p;
     mediaReceived := mediaReceived p; packetCount := packetCount p;
     mediaTimeout := mediaTimeout p; timeoutStart := timeoutStart p;
     timeoutReset := v; closed := closed p; stats := stats p;
     dtmfAudioEnabled := dtmfAudioEnabled p; jitterEnabled := jitterEnabled
     p; conf := conf p; sess := sess p; hnd := hnd p; dtmfOutRTP :=
     dtmfOutRTP p; dtmfOutAudio := dtmfOutAudio p; audioOutRTP :=
     audioOutRTP p; audioOut := audioOut p; audioIn := audioIn p;
     audioInHandler := audioInHandler p; dtmfIn := dtmfIn p |}.

Definition set_closed (v : _) (p : MediaPort) : MediaPort :=
  {| opts := opts p; externalIP := externalIP p; port := port p;
     mediaReceived := mediaReceived p; packetCount := packetCount p;
     mediaTimeout := mediaTimeout p; timeoutStart := timeoutStart p;
     timeoutReset := timeoutReset p; closed := v; stats := stats p;
     dtmfAudioEnabled := dtmfAudioEnabled p; jitterEnabled := jitterEnabled
     p; conf := conf p; sess := sess p; hnd := hnd p; dtmfOutRTP :=
     dtmfOutRTP p; dtmfOutAudio := dtmfOutAudio p; audioOutRTP :=
     audioOutRTP p; audioOut := audioOut p; audioIn := audioIn p;
     audioInHandler := audioInHandler p; dtmfIn := dtmfIn p |}.

Definition set_stats (v : _) (p : MediaPort) : MediaPort :=
  {| opts := opts p; externalIP := externalIP p; port := port p;
     mediaReceived := mediaReceived p; packetCount := packetCount p;
     mediaTimeout := mediaTimeout p; timeoutStart := timeoutStart p;
     timeoutReset := timeoutReset p; closed := closed p; stats := v;
     dtmfAudioEnabled := dtmfAudioEnabled p; jitterEnabled := jitterEnabled
     p; conf := conf p; sess := sess p; hnd := hnd p; dtmfOutRTP :=
     dtmfOutRTP p; dtmfOutAudio := dtmfOutAudio p; audioOutRTP :=
     audioOutRTP p; audioOut := audioOut p; audioIn := audioIn p;
     audioInHandler := audioInHandler p; dtmfIn := dtmfIn p |}.

Definition set_dtmfAudioEnabled (v : _) (p : MediaPort) : MediaPort :=
  {| opts := opts p; externalIP := externalIP p; port := port p;
     mediaReceived := mediaReceived p; packetCount := packetCount p;
     mediaTimeout := mediaTimeout p; timeoutStart := timeoutStart p;
     timeoutReset := timeoutReset p; closed := closed p; stats := stats p;
     dtmfAudioEnabled := v; jitterEnabled := jitterEnabled p; conf := conf
     p; sess := sess p; hnd := hnd p; dtmfOutRTP := dtmfOutRTP p;
     dtmfOutAudio := dtmfOutAudio p; audioOutRTP := audioOutRTP p; audioOut
     := audioOut p; audioIn := audioIn p; audioInHandler := audioInHandler
     p; dtmfIn := dtmfIn p |}.

Definition set_conf (v : _) (p : MediaPort) : MediaPort :=
  {| opts := opts p; externalIP := externalIP p; port := port p;
     mediaReceived := mediaReceived p; packetCount := packetCount p;
     mediaTimeout := mediaTimeout p; timeoutStart := timeoutStart p;
     timeoutReset := timeoutReset p; closed := closed p; stats := stats p;
     dtmfAudioEnabled := dtmfAudioEnabled p; jitterEnabled := jitterEnabled
     p; conf := v; sess := sess p; hnd := hnd p; dtmfOutRTP := dtmfOutRTP p;
     dtmfOutAudio := dtmfOutAudio p; audioOutRTP := audioOutRTP p; audioOut
     := audioOut p; audioIn := audioIn p; audioInHandler := audioInHandler
     p; dtmfIn := dtmfIn p |}.

Definition set_sess (v : _) (p : MediaPort) : MediaPort :=
  {| opts := opts p; externalIP := externalIP p; port := port p;
     mediaReceived := mediaReceived p; packetCount := packetCount p;
     mediaTimeout := mediaTimeout p; timeoutStart := timeoutStart p;
     timeoutReset := timeoutReset p; closed := closed p; stats := stats p;
     dtmfAudioEnabled := dtmfAudioEnabled p; jitterEnabled := jitterEnabled
     p; conf := conf p; sess := v; hnd := hnd p; dtmfOutRTP := dtmfOutRTP p;
     dtmfOutAudio := dtmfOutAudio p; audioOutRTP := audioOutRTP p; audioOut
     := audioOut p; audioIn := audioIn p; audioInHandler := audioInHandler
     p; dtmfIn := dtmfIn p |}.

Definition set_hnd (v : _) (p : MediaPort) : MediaPort :=
  {| opts := opts p; externalIP := externalIP p; port := port p;
     mediaReceived := mediaReceived p; packetCount := packetCount p;
     mediaTimeout := mediaTimeout p; timeoutStart := timeoutStart p;
     timeoutReset := timeoutReset p; closed := closed p; stats := stats p;
     dtmfAudioEnabled := dtmfAudioEnabled p; jitterEnabled := jitterEnabled
     p; conf := conf p; sess := sess p; hnd := v; dtmfOutRTP := dtmfOutRTP
     p; dtmfOutAudio := dtmfOutAudio p; audioOutRTP := audioOutRTP p;
     audioOut := audioOut p; audioIn := audioIn p; audioInHandler :=
     audioInHandler p; dtmfIn := dtmfIn p |}.

Definition set_dtmfOutRTP (v : _) (p : MediaPort) : MediaPort :=
  {| opts := opts p; externalIP := externalIP p; port := port p;
     mediaReceived := mediaReceived p; packetCount := packetCount p;
     mediaTimeout := mediaTimeout p; timeoutStart := timeoutStart p;
     timeoutReset := timeoutReset p; closed := closed p; stats := stats p;
     dtmfAudioEnabled := dtmfAudioEnabled p; jitterEnabled := jitterEnabled
     p; conf := conf p; sess := sess p; hnd := hnd p; dtmfOutRTP := v;
     dtmfOutAudio := dtmfOutAudio p; audioOutRTP := audioOutRTP p; audioOut
     := audioOut p; audioIn := audioIn p; audioInHandler := audioInHandler
     p; dtmfIn := dtmfIn p |}.

Definition set_dtmfOutAudio (v : _) (p : MediaPort) : MediaPort :=
  {| opts := opts p; externalIP := externalIP p; port := port p;
     mediaReceived := mediaReceived p; packetCount := packetCount p;
     mediaTimeout := mediaTimeout p; timeoutStart := timeoutStart p;
     timeoutReset := timeoutReset p; closed := closed p; stats := stats p;
     dtmfAudioEnabled := dtmfAudioEnabled p; jitterEnabled := jitterEnabled
     p; conf := conf p; sess := sess p; hnd := hnd p; dtmfOutRTP :=
     dtmfOutRTP p; dtmfOutAudio := v; audioOutRTP := audioOutRTP p; audioOut
     := audioOut p; audioIn := audioIn p; audioInHandler := audioInHandler
     p; dtmfIn := dtmfIn p |}.

Definition set_audioOutRTP (v : _) (p : MediaPort) : MediaPort :=
  {| opts := opts p; externalIP := externalIP p; port := port p;
     mediaReceived := mediaReceived p; packetCount := packetCount p;
     mediaTimeout := mediaTimeout p; timeoutStart := timeoutStart p;
     timeoutReset := timeoutReset p; closed := closed p; stats := stats p;
     dtmfAudioEnabled := dtmfAudioEnabled p; jitterEnabled := jitterEnabled
     p; conf := conf p; sess := sess p; hnd := hnd p; dtmfOutRTP :=
     dtmfOutRTP p; dtmfOutAudio := dtmfOutAudio p; audioOutRTP := v;
     audioOut := audioOut p; audioIn := audioIn p; audioInHandler :=
     audioInHandler p; dtmfIn := dtmfIn p |}.

Definition set_audioOut (v : _) (p : MediaPort) : MediaPort :=
  {| opts := opts p; externalIP := externalIP p; port := port p;
     mediaReceived := mediaReceived p; packetCount := packetCount p;
     mediaTimeout := mediaTimeout p; timeoutStart := timeoutStart p;
     timeoutReset := timeoutReset p; closed := closed p; stats := stats p;
     dtmfAudioEnabled := dtmfAudioEnabled p; jitterEnabled := jitterEnabled
     p; conf := conf p; sess := sess p; hnd := hnd p; dtmfOutRTP :=
     dtmfOutRTP p; dtmfOutAudio := dtmfOutAudio p; audioOutRTP :=
     audioOutRTP p; audioOut := v; audioIn := audioIn p; audioInHandler :=
     audioInHandler p; dtmfIn := dtmfIn p |}.

Definition set_audioIn (v : _) (p : MediaPort) : MediaPort :=
  {| opts := opts p; externalIP := externalIP p; port := port p;
     mediaReceived := mediaReceived p; packetCount := packetCount p;
     mediaTimeout := mediaTimeout p; timeoutStart := timeoutStart p;
     timeoutReset := timeoutReset p; closed := closed p; stats := stats p;
     dtmfAudioEnabled := dtmfAudioEnabled p; jitterEnabled := jitterEnabled
     p; conf := conf p; sess := sess p; hnd := hnd p; dtmfOutRTP :=
     dtmfOutRTP p; dtmfOutAudio := dtmfOutAudio p; audioOutRTP :=
     audioOutRTP p; audioOut := audioOut p; audioIn := v; audioInHandler :=
     audioInHandler p; dtmfIn := dtmfIn p |}.

Definition set_audioInHandler (v : _) (p : MediaPort) : MediaPort :=
  {| opts := opts p; externalIP := externalIP p; port := port p;
     mediaReceived := mediaReceived p; packetCount := packetCount p;
     mediaTimeout := mediaTimeout p; timeoutStart := timeoutStart p;
     timeoutReset := timeoutReset p; closed := closed p; stats := stats p;
     dtmfAudioEnabled := dtmfAudioEnabled p; jitterEnabled := jitterEnabled
     p; conf := conf p; sess := sess p; hnd := hnd p; dtmfOutRTP :=
     dtmfOutRTP p; dtmfOutAudio := dtmfOutAudio p; audioOutRTP :=
     audioOutRTP p; audioOut := audioOut p; audioIn := audioIn p;
     audioInHandler := v; dtmfIn := dtmfIn p |}.

Definition set_dtmfIn (v : _) (p : MediaPort) : MediaPort :=
  {| opts := opts p; externalIP := externalIP p; port := port p;
     mediaReceived := mediaReceived p; packetCount := packetCount p;
     mediaTimeout := mediaTimeout p; timeoutStart := timeoutStart p;
     timeoutReset := timeoutReset p; closed := closed p; stats := stats p;
     dtmfAudioEnabled := dtmfAudioEnabled p; jitterEnabled := jitterEnabled
     p; conf := conf p; sess := sess p; hnd := hnd p; dtmfOutRTP :=
     dtmfOutRTP p; dtmfOutAudio := dtmfOutAudio p; audioOutRTP :=
     audioOutRTP p; audioOut := audioOut p; audioIn := audioIn p;
     audioInHandler := audioInHandler p; dtmfIn := v |}.

Definition set_logs (v : _) (w : World) : World :=
  {| logs := v; sessions := sessions w; goroutines := goroutines w; sent :=
     sent w; closedWriters := closedWriters w; closedHandlers :=
     closedHandlers w; dtmfWrites := dtmfWrites w; handled := handled w |}.

Definition set_sessions (v : _) (w : World) : World :=
  {| logs := logs w; sessions := v; goroutines := goroutines w; sent := sent
     w; closedWriters := closedWriters w; closedHandlers := closedHandlers
     w; dtmfWrites := dtmfWrites w; handled := handled w |}.

Definition set_goroutines (v : _) (w : World) : World :=
  {| logs := logs w; sessions := sessions w; goroutines := v; sent := sent
     w; closedWriters := closedWriters w; closedHandlers := closedHandlers
     w; dtmfWrites := dtmfWrites w; handled := handled w |}.

Definition set_sent (v : _) (w : World) : World :=
  {| logs := logs w; sessions := sessions w; goroutines := goroutines w;
     sent := v; closedWriters := closedWriters w; closedHandlers :=
     closedHandlers w; dtmfWrites := dtmfWrites w; handled := handled w |}.

Definition set_closedWriters (v : _) (w : World) : World :=
  {| logs := logs w; sessions := sessions w; goroutines := goroutines w;
     sent := sent w; closedWriters := v; closedHandlers := closedHandlers w;
     dtmfWrites := dtmfWrites w; handled := handled w |}.

Definition set_closedHandlers (v : _) (w : World) : World :=
  {| logs := logs w; sessions := sessions w; goroutines := goroutines w;
     sent := sent w; closedWriters := closedWriters w; closedHandlers := v;
     dtmfWrites := dtmfWrites w; handled := handled w |}.

Definition set_dtmfWrites (v : _) (w : World) : World :=
  {| logs := logs w; sessions := sessions w; goroutines := goroutines w;
     sent := sent w; closedWriters := closedWriters w; closedHandlers :=
     closedHandlers w; dtmfWrites := v; handled := handled w |}.

Definition set_handled (v : _) (w : World) : World :=
  {| logs := logs w; sessions := sessions w; goroutines := goroutines w;
     sent := sent w; closedWriters := closedWriters w; closedHandlers :=
     closedHandlers w; dtmfWrites := dtmfWrites w; handled := v |}.

(** ** Calls that may panic *)

Inductive outcome (A : Type) : Type :=
| Ret (a : A)
| Panicked (why : string).
Arguments Ret {A} a.
Arguments Panicked {A} why.

Definition Go (A : Type) : Type := State -> outcome A * State.

Definition ret {A : Type} (a : A) : Go A := fun st => (Ret a, st).

(** Sequencing: a panic ends the call, with the state reached so far. *)
Definition bind {A B : Type} (m : Go A) (f : A -> Go B) : Go B :=
  fun st =>
    match m st with
    | (Ret a, st') => f a st'
    | (Panicked why, st') => (Panicked why, st')
    end.

Declare Scope go_scope.
Delimit Scope go_scope with go.
Bind Scope go_scope with Go.
Notation "x ← y ; z" := (bind y (fun x => z))
  (at level 20, y at level 100, z at level 200, only parsing) : go_scope.
Notation "x ;; z" := (bind x (fun _ => z))
  (at level 100, z at level 200, only parsing, right associativity) : go_scope.
Local Open Scope go_scope.

Definition gets {A : Type} (f : MediaPort -> A) : Go A :=
  fun st => (Ret (f (mp st)), st).

Definition modify_port (f : MediaPort -> MediaPort) : Go unit :=
  fun st => (Ret tt, {| mp := f (mp st); world := world st |}).

Definition modify_world (f : World -> World) : Go unit :=
  fun st => (Ret tt, {| mp := mp st; world := f (world st) |}).

Definition nilDereference : string :=
  "invalid memory address or nil pointer dereference".

Definition panic {A : Type} (why : string) : Go A :=
  fun st => (Panicked why, st).

(** [*ptr], and a method call on an interface value. *)
Definition deref {A : Type} (ptr : option A) : Go A :=
  match ptr with Some a => ret a | None => panic nilDereference end.

Definition logw (l : Level) (msg : string) (kv : list (string * LogValue))
  : Go unit :=
  modify_world (fun w => set_logs (logs w ++ [mkLog l msg kv]) w).

Definition spawn (g : Goroutine) : Go unit :=
  modify_world (fun w => set_goroutines (goroutines w ++ [g]) w).

Definition writer_Close (w : PCM16Writer) : Go unit :=
  modify_world (fun wd => set_closedWriters (closedWriters wd ++ [w]) wd).

Definition handler_Close (h : Handler) : Go unit :=
  modify_world (fun wd => set_closedHandlers (closedHandlers wd ++ [h]) wd).

(** [sess.Close()]: the session object is shared, the flag lives in it. *)
Definition session_Close (i : nat) : Go unit :=
  modify_world (fun wd =>
    match sessions wd !! i with
    | Some s => set_sessions (<[i := mkSession (s_secure s) true]> (sessions wd)) wd
    | None => wd
    end).

Definition new_session (secure : bool) : Go nat :=
  fun st =>
    let i := length (sessions (world st)) in
    (Ret i, {| mp := mp st;
               world := set_sessions (sessions (world st) ++ [mkSession secure false])
                                     (world st) |}).

(** ** The UDP channel *)

Definition udpConn_GetSrc (c : udpConn) : AddrPort * bool :=
  match src c with
  | None => (mkAddrPort AddrZero 0, false)
  | Some addr => (addr, AddrPort_IsValid addr)
  end.

Definition udpConn_SetDst (addr : AddrPort) : Go unit :=
  if AddrPort_IsValid addr then
    prev ← gets (fun p => dst (port p));
    modify_port (fun p => set_port (set_dst (Some addr) (port p)) p);;
    match prev with
    | None => logw Info "setting media destination" [("addr", VAddr addr)]
    | Some pv =>
        if negb (AddrPort_IsValid pv)
        then logw Info "setting media destination" [("addr", VAddr addr)]
        else if decide (pv = addr) then ret tt
        else logw Info "changing media destination" [("addr", VAddr addr)]
    end
  else ret tt.

(** [Read], given what [ReadFromUDPAddrPort] answered. *)
Definition udpConn_Read (n : Z) (addr : AddrPort) (err : option error)
  : Go (Z * option error) :=
  prev ← gets (fun p => src (port p));
  modify_port (fun p => set_port (set_src (Some addr) (port p)) p);;
  match prev with
  | None => logw Info "setting media source" [("addr", VAddr addr)]
  | Some pv =>
      if negb (AddrPort_IsValid pv)
      then logw Info "setting media source" [("addr", VAddr addr)]
      else if decide (pv = addr) then ret tt
      else logw Info "changing media source" [("addr", VAddr addr)]
  end;;
  ret (n, err).

Definition udpConn_Close : Go unit :=
  modify_port (fun p => set_port (set_conn_closed true (port p)) p).

Section MediaPort.

(** Answers of the libraries the port calls into. *)
Variable WriteToUDPAddrPort_result : bytes -> AddrPort -> Z * option error.
Variable srtp_NewSession_result : CryptoConfig -> option error.
Variable OpenWriteStream_result : nat -> option error.
Variable GetCurrentTimestamp : Stream -> Z.
Variable dtmf_Write_result : DTMFWrite -> option error.

(** The socket call: the datagram is handed to the socket. *)
Definition WriteToUDPAddrPort (b : bytes) (addr : AddrPort)
  : Go (Z * option error) :=
  modify_world (fun w => set_sent (sent w ++ [mkDatagram b addr]) w);;
  ret (WriteToUDPAddrPort_result b addr).

Definition udpConn_Write (b : bytes) : Go (Z * option error) :=
  d ← gets (fun p => dst (port p));
  match d with
  | None => ret (len b, None) (* ignore *)
  | Some a => WriteToUDPAddrPort b a
  end.

(** ** The switch writers *)

Definition switch (which : SwitchName) (p : MediaPort) : SwitchWriter :=
  match which with AudioOut => audioOut p | AudioIn => audioIn p end.

Definition set_switch (which : SwitchName) (s : SwitchWriter) (p : MediaPort)
  : MediaPort :=
  match which with AudioOut => set_audioOut s p | AudioIn => set_audioIn s p end.

(** [sw.Swap(w)] returns the displaced target. *)
Definition SwitchWriter_Swap (which : SwitchName) (w : option PCM16Writer)
  : Go (option PCM16Writer) :=
  old ← gets (fun p => sw_target (switch which p));
  modify_port (fun p =>
    let s := switch which p in
    set_switch which (mkSwitch (sw_sampleRate s) w (sw_disabled s)) p);;
  ret old.

Definition close_displaced (w : option PCM16Writer) : Go unit :=
  match w with Some w' => writer_Close w' | None => ret tt end.

Definition DisableOut : Go unit :=
  modify_port (fun p =>
    let s := audioOut p in
    set_audioOut (mkSwitch (sw_sampleRate s) (sw_target s) true) p).

Definition EnableOut : Go unit :=
  modify_port (fun p =>
    let s := audioOut p in
    set_audioOut (mkSwitch (sw_sampleRate s) (sw_target s) false) p).

(** ** Construction *)

Definition zeroStats : PortStats := mkStats 0 0 0 0 0 0 0 0 0 0.

Definition zeroOptions : MediaOptions :=
  mkOpts AddrZero 0 0 None false.

(** The defaults [NewMediaPortWith] writes into the options. *)
Definition defaultOptions (o : option MediaOptions) : MediaOptions :=
  let o := match o with Some o => o | None => zeroOptions end in
  let initial :=
    if MediaTimeoutInitial o <=? 0 then 30 * Second else MediaTimeoutInitial o in
  let timeout :=
    if MediaTimeout o <=? 0 then 15 * Second else MediaTimeout o in
  let st := match Stats o with Some s => s | None => zeroStats end in
  mkOpts (IP o) initial timeout (Some st) (EnableJitterBuffer o).

Definition emptyWorld : World := mkWorld [] [] [] [] [] [] [] [].

(** [NewMediaPortWith]: [conn] is the connection passed in, if any, by its
    local port; [listen] is the answer of [rtp.ListenUDPPortRange], asked
    only when none is passed. *)
Definition NewMediaPortWith (conn : option Z) (listen : Z + error)
  (o : option MediaOptions) (sampleRate : Z) : State + error :=
  let o := defaultOptions o in
  let bound := match conn with Some c => inl c | None => listen end in
  match bound with
  | inr err => inr err
  | inl lport =>
      let p := {|
        opts := o;
        externalIP := IP o;
        port := mkUdpConn lport None None false;
        mediaReceived := false;
        packetCount := 0;
        mediaTimeout := false;
        timeoutStart := None;
        timeoutReset := false;
        closed := false;
        stats := match Stats o with Some s => s | None => zeroStats end;
        dtmfAudioEnabled := false;
        jitterEnabled := EnableJitterBuffer o;
        conf := None;
        sess := None;
        hnd := None;
        dtmfOutRTP := None;
        dtmfOutAudio := None;
        audioOutRTP := None;
        audioOut := mkSwitch sampleRate None false;
        audioIn := mkSwitch sampleRate None false;
        audioInHandler := None;
        dtmfIn := None |} in
      inl {| mp := p;
             world :=
               set_logs [mkLog Debug "listening for media on UDP"
                               [("port", VInt lport)]]
                 (set_goroutines [GoTimeoutLoop] emptyWorld) |}
  end.

Definition Port (p : MediaPort) : Z := localPort (port p).

(** ** Lifecycle and wiring *)

(** [EnableTimeout], with the reading of [time.Now()]. *)
Definition EnableTimeout (enabled : bool) (now : Time) : Go unit :=
  if negb enabled then modify_port (set_timeoutStart None)
  else
    (* non-blocking send on a channel of capacity one *)
    modify_port (set_timeoutReset true);;
    modify_port (set_timeoutStart (Some now));;
    n ← gets packetCount;
    logw Info "media timeout enabled" [("packets", VInt n)].

(** [Close]: the body runs under [closed.Once], which breaks the fuse. *)
Definition Close : Go unit :=
  c ← gets closed;
  if c then ret tt
  else
    w ← SwitchWriter_Swap AudioOut None; close_displaced w;;
    w ← SwitchWriter_Swap AudioIn None; close_displaced w;;
    modify_port (set_audioOutRTP None);;
    modify_port (set_audioInHandler None);;
    modify_port (set_dtmfOutRTP None);;
    da ← gets dtmfOutAudio;
    match da with
    | Some w => writer_Close w;; modify_port (set_dtmfOutAudio None)
    | None => ret tt
    end;;
    modify_port (set_dtmfIn None);;
    s ← gets sess;
    match s with Some i => session_Close i | None => ret tt end;;
    udpConn_Close;;
    h ← gets hnd;
    match h with
    | Some h' => h'' ← deref h'; handler_Close h''
    | None => ret tt
    end;;
    modify_port (set_closed true).

Definition Config : Go (option MediaConf) := gets conf.

Definition WriteAudioTo (w : option PCM16Writer) : Go unit :=
  c ← gets conf;
  c ← deref c;
  let w := match Processor c with
           | Some processor => Some (ProcessedWriter processor w)
           | None => w
           end in
  pw ← SwitchWriter_Swap AudioIn w;
  close_displaced pw.

(** Must be called holding the lock. *)
Definition setupOutput : Go (option error) :=
  c ← gets closed;
  if c then ret (Some errMediaClosed)
  else
    s ← gets sess;
    s ← deref s;
    spawn (GoRtpLoop s);;
    match OpenWriteStream_result s with
    | Some err => ret (Some err)
    | None =>
        cf ← gets conf;
        cf ← deref cf;
        codec ← deref (Codec (Audio cf));
        let audioRTP := mkStream s (Type_ (Audio cf)) (RTPClockRate codec) in
        modify_port (set_audioOutRTP (Some audioRTP));;
        (* Encoding pipeline (LK PCM -> SIP RTP) *)
        let out := EncodeRTP codec audioRTP in
        enabled ← gets dtmfAudioEnabled;
        out ← (if decide (DTMFType (Audio cf) = 0) then ret out
               else
                 modify_port (set_dtmfOutRTP
                   (Some (mkStream s (DTMFType (Audio cf)) dtmf_SampleRate)));;
                 if enabled then
                   (* Add separate mixer for DTMF audio. *)
                   modify_port (set_dtmfOutAudio
                     (Some (MixerInput out rtp_DefFrameDur 1)));;
                   ret (MixerInput out rtp_DefFrameDur 0)
                 else ret out);
        w ← SwitchWriter_Swap AudioOut (Some out);
        close_displaced w;;
        ret None
    end.

Definition setupInput : Go unit :=
  cf ← gets conf;
  cf ← deref cf;
  codec ← deref (Codec (Audio cf));
  (* Decoding pipeline (SIP RTP -> LK PCM) *)
  let audioHandler := DecodeRTP codec (SwitchRef AudioIn) (Type_ (Audio cf)) in
  modify_port (set_audioInHandler (Some audioHandler));;
  let audioArm :=
    (Type_ (Audio cf),
     RTPHandlerCount (RTPStatsHandler (SDPName codec) (Some audioHandler))
                     CntAudio) in
  let dtmfArm :=
    if decide (DTMFType (Audio cf) = 0) then []
    else [(DTMFType (Audio cf),
           RTPHandlerCount (RTPStatsHandler dtmf_SDPName (Some DTMFHandlerFunc))
                           CntDTMF)] in
  let mux := Mux (Some (RTPStatsHandler "" None)) (audioArm :: dtmfArm) in
  let h := NopCloser (RTPHandlerCount mux CntMux) in
  jitter ← gets jitterEnabled;
  let h := if jitter then HandleJitter h else h in
  modify_port (set_hnd (Some (Some h))).

Definition SetConfig (c : option MediaConf) : Go (option error) :=
  broken ← gets closed;
  if broken then ret (Some errMediaClosed)
  else
    c' ← deref c;
    let crypto :=
      match Crypto c' with Some k => Profile k | None => "" end in
    codec ← deref (Codec (Audio c'));
    logw Info "using codecs"
      [("audio-codec", VStr (SDPName codec));
       ("audio-rtp", VInt (Type_ (Audio c')));
       ("dtmf-rtp", VInt (DTMFType (Audio c')));
       ("srtp", VStr crypto)];;
    udpConn_SetDst (Remote c');;
    r ← match Crypto c' with
        | Some k =>
            match srtp_NewSession_result k with
            | Some err => ret (inr err)
            | None => i ← new_session true; ret (inl i)
            end
        | None => i ← new_session false; ret (inl i)
        end;
    match r with
    | inr err => ret (Some err)
    | inl i =>
        udpConn_SetDst (Remote c');;
        modify_port (set_conf c);;
        modify_port (set_sess (Some i));;
        err ← setupOutput;
        match err with
        | Some e => ret (Some e)
        | None => setupInput;; ret None
        end
    end.

(** SetDTMFAudio forces SIP to generate audio DTMF tones in addition to
    digital signals. *)
Definition SetDTMFAudio (enabled : bool) : Go unit :=
  modify_port (set_dtmfAudioEnabled enabled).

(** HandleDTMF sets an incoming DTMF handler. *)
Definition HandleDTMF (h : option nat) : Go unit :=
  modify_port (set_dtmfIn h).

(** [dtmf.Write] of the media library. *)
Definition dtmf_Write (call : DTMFWrite) : Go (option error) :=
  modify_world (fun w => set_dtmfWrites (dtmfWrites w ++ [call]) w);;
  ret (dtmf_Write_result call).

Definition WriteDTMF (ctx : nat) (digits : string) : Go (option error) :=
  if decide (String.length digits = 0%nat) then ret None
  else
    dtmfOut ← gets dtmfOutRTP;
    aOut ← gets dtmfOutAudio;
    audioRTP ← gets audioOutRTP;
    enabled ← gets dtmfAudioEnabled;
    let aOut := if negb enabled then None else aOut in
    match dtmfOut, aOut with
    | None, None => ret None
    | _, _ =>
        let rtpTs := match audioRTP with
                     | Some s => GetCurrentTimestamp s
                     | None => 0
                     end in
        dtmf_Write (mkDTMFWrite ctx aOut dtmfOut rtpTs digits)
    end.

End MediaPort.

(** ** The goroutines *)

(** [p.stats.X.Add(1)] *)
Definition stats_add (get : PortStats -> Z) (set : Z -> PortStats -> PortStats)
  : Go unit :=
  modify_port (fun p => set_stats (set (uint64_add (get (stats p)) 1) (stats p)) p).

(** [Fuse.Break] *)
Definition mediaReceived_Break : Go unit :=
  modify_port (set_mediaReceived true).

(** What [sess.AcceptStream()] answers after blocking. *)
Inductive AcceptAnswer : Type :=
| Accepted (stream : nat) (ssrc : Z)
| AcceptFailed (err : error).

(** How far a goroutine got on the answers it was given: it returned, or it
    is blocked waiting for the next one. *)
Inductive Progress : Type := Returned | Blocked.

(** [rtpLoop]: every accepted stream gets its own read loop. *)
Fixpoint rtpLoop (answers : list AcceptAnswer) : Go Progress :=
  match answers with
  | [] => ret Blocked
  | AcceptFailed err :: _ =>
      (if negb (is_net_ErrClosed err)
          && negb (strings_Contains (Error err) "closed")
       then logw Err "cannot accept RTP stream" [("error", VErr (Some err))]
       else ret tt);;
      ret Returned
  | Accepted r ssrc :: rest =>
      stats_add Streams set_Streams;;
      mediaReceived_Break;;
      logw Info "accepting RTP stream" [("ssrc", VInt ssrc)];;
      spawn (GoRtpReadLoop ssrc r);;
      rtpLoop rest
  end.

(** The [rtpLoop] of the earlier revision of the file, which reads the first
    stream only. *)
Fixpoint rtpLoop_v1 (first : bool) (answers : list AcceptAnswer) : Go Progress :=
  match answers with
  | [] => ret Blocked
  | AcceptFailed err :: _ =>
      (if negb (is_net_ErrClosed err)
       then logw Err "cannot accept RTP stream" [("error", VErr (Some err))]
       else ret tt);;
      ret Returned
  | Accepted r ssrc :: rest =>
      mediaReceived_Break;;
      if first then
        logw Info "accepting media" [("ssrc", VInt ssrc)];;
        spawn (GoRtpReadLoop ssrc r);;
        rtpLoop_v1 false rest
      else
        logw Warn "ignoring media" [("ssrc", VInt ssrc)];;
        rtpLoop_v1 false rest
  end.

(** What [r.ReadRTP(&h, buf)] answers after blocking, together with what the
    handler answers if the packet is handed to it. *)
Inductive ReadAnswer : Type :=
| ReadFailed (err : error)
| ReadPacket (h : Header) (n : Z) (handle : option error).

(** The variables of [rtpReadLoop] that live across iterations. *)
Record ReadVars : Type := mkReadVars {
  overflow : bool;
  pipeline : string;
  errorCnt : Z
}.

Definition readVars0 : ReadVars := mkReadVars false "" 0.

(** The return statement through which [rtpReadLoop] left, if it did. *)
Inductive ReadExit : Type :=
| ReadBlocked
| ReadEOF
| ReadError
| ReadKilled.

Definition maxErrors : Z := 50. (* 1 sec, given 20 ms frames *)

Definition msgOversize : string := "RTP packet is larger than MTU limit".

Section Loops.

(** [hnd.String()] of the media library. *)
Variable Handler_String : Handler -> string.

Definition count_packet : Go unit :=
  modify_port (fun p => set_packetCount (uint64_add (packetCount p) 1) p);;
  stats_add Packets set_Packets.

Definition HandleRTP (h : Handler) (hdr : Header) (n : Z) : Go unit :=
  modify_world (fun w => set_handled (handled w ++ [mkHandleCall h hdr n]) w).

Fixpoint rtpReadLoop (log : list (string * LogValue))
  (answers : list ReadAnswer) (v : ReadVars) : Go (ReadExit * ReadVars) :=
  match answers with
  | [] => ret (ReadBlocked, v)
  | ReadFailed err :: _ =>
      if decide (err = io_EOF) then ret (ReadEOF, v)
      else
        logw Err "read RTP failed" (log ++ [("error", VErr (Some err))]);;
        ret (ReadError, v)
  | ReadPacket h n handle :: rest =>
      count_packet;;
      if n >? rtp_MTUSize then
        let v := mkReadVars true (pipeline v) (errorCnt v) in
        (if negb (overflow v)
         then logw Err msgOversize
                (log ++ [("error", VErr None); ("payloadSize", VInt n)])
         else ret tt);;
        stats_add IgnoredPackets set_IgnoredPackets;;
        rtpReadLoop log rest v (* ignore partial messages *)
      else
        ptr ← gets hnd;
        match ptr with
        | None | Some None =>
            stats_add IgnoredPackets set_IgnoredPackets;;
            rtpReadLoop log rest v
        | Some (Some hd) =>
            stats_add InputPackets set_InputPackets;;
            HandleRTP hd h n;;
            match handle with
            | Some err =>
                let pl := if decide (pipeline v = "")
                          then Handler_String hd else pipeline v in
                let log' := log ++ [("payloadSize", VInt n);
                                    ("rtpHeader", VHeader h);
                                    ("pipeline", VStr pl);
                                    ("errorCount", VInt (errorCnt v))] in
                logw Debug "handle RTP failed" (log' ++ [("error", VErr (Some err))]);;
                let v := mkReadVars (overflow v) pl (int_incr (errorCnt v)) in
                if errorCnt v >=? maxErrors then
                  logw Err "killing RTP loop due to persisted errors"
                    (log' ++ [("error", VErr (Some err))]);;
                  ret (ReadKilled, v)
                else rtpReadLoop log rest v
            | None =>
                rtpReadLoop log rest (mkReadVars (overflow v) "" 0)
            end
        end
  end.

(** One session served to the end of the given answers: the accept loop,
    then the read loops it started, each on the answers of its stream. *)
Fixpoint run_read_loops (input : nat -> list ReadAnswer) (gs : list Goroutine)
  : Go unit :=
  match gs with
  | [] => ret tt
  | GoRtpReadLoop ssrc r :: gs' =>
      rtpReadLoop [("ssrc", VInt ssrc)] (input r) readVars0;;
      run_read_loops input gs'
  | _ :: gs' => run_read_loops input gs'
  end.

Definition serve (accept : list AcceptAnswer -> Go Progress)
  (answers : list AcceptAnswer) (input : nat -> list ReadAnswer) : Go unit :=
  fun st =>
    let before := length (goroutines (world st)) in
    (accept answers;;
     gs ← (fun st' => (Ret (drop before (goroutines (world st'))), st'));
     run_read_loops input gs) st.

End Loops.

(** ** The watchdog *)

(** The variables of [timeoutLoop]. *)
Record WatchVars : Type := mkWatchVars {
  lastPackets : Z;
  startPackets : Z;
  lastTime : Time
}.

Definition watchVars0 : WatchVars := mkWatchVars 0 0 zeroTime.

(** The case of the [select] that is taken, with the clock reading of that
    iteration. *)
Inductive SelectCase : Type :=
| CaseClosed
| CaseReset (now : Time)
| CaseTick (now : Time).

Inductive WatchExit : Type :=
| WatchRunning
| WatchClosed
| WatchFired.

(** The callback [NewMediaPortWith] passes: [close(mediaTimeout)]. *)
Definition timeoutCallback : Go unit :=
  c ← gets mediaTimeout;
  if c then panic "close of closed channel"
  else modify_port (set_mediaTimeout true).

Definition msgTimeout : string := "triggering media timeout".

(** One iteration of the [for] of [timeoutLoop].  A case whose channel is
    not ready cannot be taken: the loop keeps waiting. *)
Definition timeoutLoop_iter (c : SelectCase) (v : WatchVars)
  : Go (WatchExit * WatchVars) :=
  match c with
  | CaseClosed =>
      broken ← gets closed;
      if broken then ret (WatchClosed, v) else ret (WatchRunning, v)
  | CaseReset now =>
      full ← gets timeoutReset;
      if full then
        modify_port (set_timeoutReset false);;
        cur ← gets packetCount;
        ret (WatchRunning, mkWatchVars (lastPackets v) cur now)
      else ret (WatchRunning, v)
  | CaseTick now =>
      curPackets ← gets packetCount;
      if decide (curPackets <> lastPackets v) then
        (* wait for the next tick *)
        ret (WatchRunning, mkWatchVars curPackets (startPackets v) now)
      else
        startPtr ← gets timeoutStart;
        match startPtr with
        | None => ret (WatchRunning, v) (* timeout disabled *)
        | Some start =>
            o ← gets opts;
            (* First timeout is allowed to be longer. *)
            let sinceStart := time_Since now start in
            if (lastPackets v =? startPackets v)
               && (sinceStart <? MediaTimeoutInitial o)
            then ret (WatchRunning, v)
            else
              (* Ticker is allowed to fire earlier than the full interval. *)
              let sinceLast := time_Since now (lastTime v) in
              if sinceLast <? MediaTimeout o then ret (WatchRunning, v)
              else
                logw Info msgTimeout
                  [("packets", VInt (lastPackets v));
                   ("startPackets", VInt (startPackets v));
                   ("sinceStart", VDur sinceStart);
                   ("sinceLast", VDur sinceLast);
                   ("initial", VDur (MediaTimeoutInitial o));
                   ("timeout", VDur (MediaTimeout o))];;
                timeoutCallback;;
                ret (WatchFired, v)
        end
  end.

Fixpoint timeoutLoop_from (cases : list SelectCase) (v : WatchVars)
  : Go (WatchExit * WatchVars) :=
  match cases with
  | [] => ret (WatchRunning, v)
  | c :: rest =>
      r ← timeoutLoop_iter c v;
      match fst r with
      | WatchRunning => timeoutLoop_from rest (snd r)
      | _ => ret r
      end
  end.

Definition timeoutLoop (cases : list SelectCase) : Go (WatchExit * WatchVars) :=
  timeoutLoop_from cases watchVars0.

(** ** The port and its goroutines, interleaved *)

(** What happens to a port, in the order it happens: calls of its methods,
    and the steps of its goroutines. *)
Inductive Event : Type :=
| EvSetConfig (c : option MediaConf)
| EvClose
| EvWriteAudioTo (w : option PCM16Writer)
| EvWriteDTMF (ctx : nat) (digits : string)
| EvSetDTMFAudio (enabled : bool)
| EvHandleDTMF (h : option nat)
| EvEnableTimeout (enabled : bool) (now : Time)
| EvDisableOut
| EvEnableOut
| EvWrite (b : bytes)
| EvRead (n : Z) (addr : AddrPort) (err : option error)
| EvAccept (answers : list AcceptAnswer)
| EvPacket (now : Time) (a : ReadAnswer)
| EvSelect (c : SelectCase).

(** A port together with its watchdog and the read loop of its stream. *)
Record System : Type := mkSystem {
  sys_state : State;
  sys_watch : WatchExit;
  sys_vars : WatchVars;
  sys_read : ReadExit;
  sys_readVars : ReadVars
}.

Section Run.

Variable WriteToUDPAddrPort_result : bytes -> AddrPort -> Z * option error.
Variable srtp_NewSession_result : CryptoConfig -> option error.
Variable OpenWriteStream_result : nat -> option error.
Variable GetCurrentTimestamp : Stream -> Z.
Variable dtmf_Write_result : DTMFWrite -> option error.
Variable Handler_String : Handler -> string.

(** The state a call leaves behind, whether it returned or panicked. *)
Definition exec {A : Type} (m : Go A) (s : System) : System :=
  mkSystem (snd (m (sys_state s))) (sys_watch s) (sys_vars s)
           (sys_read s) (sys_readVars s).

Definition step (s : System) (e : Event) : System :=
  match e with
  | EvSetConfig c =>
      exec (SetConfig srtp_NewSession_result OpenWriteStream_result c) s
  | EvClose => exec Close s
  | EvWriteAudioTo w => exec (WriteAudioTo w) s
  | EvWriteDTMF ctx digits =>
      exec (WriteDTMF GetCurrentTimestamp dtmf_Write_result ctx digits) s
  | EvSetDTMFAudio enabled => exec (SetDTMFAudio enabled) s
  | EvHandleDTMF h => exec (HandleDTMF h) s
  | EvEnableTimeout enabled now => exec (EnableTimeout enabled now) s
  | EvDisableOut => exec DisableOut s
  | EvEnableOut => exec EnableOut s
  | EvWrite b => exec (udpConn_Write WriteToUDPAddrPort_result b) s
  | EvRead n addr err => exec (udpConn_Read n addr err) s
  | EvAccept answers => exec (rtpLoop answers) s
  | EvPacket _ a =>
      match sys_read s with
      | ReadBlocked =>
          match rtpReadLoop Handler_String [] [a] (sys_readVars s) (sys_state s) with
          | (Ret (x, v), st) => mkSystem st (sys_watch s) (sys_vars s) x v
          | (Panicked _, st) =>
              mkSystem st (sys_watch s) (sys_vars s) (sys_read s) (sys_readVars s)
          end
      | _ => s
      end
  | EvSelect c =>
      match sys_watch s with
      | WatchRunning =>
          match timeoutLoop_iter c (sys_vars s) (sys_state s) with
          | (Ret (x, v), st) => mkSystem st x v (sys_read s) (sys_readVars s)
          | (Panicked _, st) =>
              mkSystem st (sys_watch s) (sys_vars s) (sys_read s) (sys_readVars s)
          end
      | _ => s
      end
  end.

Definition run (s : System) (es : list Event) : System := fold_left step es s.

End Run.

Definition start (st : State) : System :=
  mkSystem st WatchRunning watchVars0 ReadBlocked readVars0.

(** ** The timeout condition in the words of the specification *)

(** What an observer of the events knows: since when the timeout is enabled
    and when the last packet since then was counted. *)
Record Observed : Type := mkObserved {
  enabledSince : option Time;
  lastPacketAt : option Time
}.

Definition observe (o : Observed) (e : Event) : Observed :=
  match e with
  | EvEnableTimeout true now => mkObserved (Some now) None
  | EvEnableTimeout false _ => mkObserved None (lastPacketAt o)
  | EvPacket now (ReadPacket _ _ _) => mkObserved (enabledSince o) (Some now)
  | _ => o
  end.

(** "Timeout is enabled and no packet is counted for a window of at least
    [MediaTimeout] after either (a) the initial grace [MediaTimeoutInitial]
    from enable with zero packets, or (b) any prior packet." *)
Definition timeout_due (opt : MediaOptions) (o : Observed) (now : Time) : bool :=
  match enabledSince o with
  | None => false
  | Some t0 =>
      match lastPacketAt o with
      | None => (MediaTimeoutInitial opt <=? now - t0) && (MediaTimeout opt <=? now - t0)
      | Some tp => MediaTimeout opt <=? now - tp
      end
  end.

Definition event_time (e : Event) : option Time :=
  match e with
  | EvEnableTimeout _ now | EvPacket now _
  | EvSelect (CaseReset now) | EvSelect (CaseTick now) => Some now
  | _ => None
  end.

(** The condition holds at the time of some event of the trace. *)
Fixpoint timeout_due_during (opt : MediaOptions) (o : Observed) (es : list Event)
  : bool :=
  match es with
  | [] => false
  | e :: rest =>
      match event_time e with
      | Some now => timeout_due opt o now
      | None => false
      end || timeout_due_during opt (observe o e) rest
  end.

(** ** What can be read off a run *)

(** Log entries with a given message. *)
Definition count_msg (m : string) (l : list LogEntry) : nat :=
  length (filter (fun e => message e = m) l).

(** The streams [AcceptStream] hands out before it first fails. *)
Fixpoint accepted (answers : list AcceptAnswer) : list (Z * nat) :=
  match answers with
  | Accepted r ssrc :: rest => (ssrc, r) :: accepted rest
  | _ => []
  end.

Definition read_loop_of (s : Z * nat) : Goroutine :=
  GoRtpReadLoop (fst s) (snd s).

(** Whether a handler is published in the atomic pointer. *)
Definition published (st : State) : bool :=
  match hnd (mp st) with Some (Some _) => true | _ => false end.

(** For the packets read before the first read failure that reach the
    handler (not oversize, handler published), in order: did it fail? *)
Fixpoint handler_failures (pub : bool) (answers : list ReadAnswer) : list bool :=
  match answers with
  | ReadPacket _ n handle :: rest =>
      if (n >? rtp_MTUSize) || negb pub then handler_failures pub rest
      else match handle with
           | Some _ => true :: handler_failures pub rest
           | None => false :: handler_failures pub rest
           end
  | _ => []
  end.

(** Whether a run of failures, [c] of which are already behind, gets to
    fifty before a success interrupts it. *)
Fixpoint run_reaches_max (c : nat) (failures : list bool) : bool :=
  match failures with
  | [] => false
  | true :: rest =>
      if (50 <=? S c)%nat then true else run_reaches_max (S c) rest
  | false :: rest => run_reaches_max 0 rest
  end.

(** The return statement a read loop left through. *)
Definition read_exit (r : outcome (ReadExit * ReadVars) * State) : ReadExit :=
  match fst r with
  | Ret (x, _) => x
  | Panicked _ => ReadBlocked
  end.

(** How the watchdog left, if it did. *)
Definition watch_exit (r : outcome (WatchExit * WatchVars) * State) : WatchExit :=
  match fst r with
  | Ret (x, _) => x
  | Panicked _ => WatchRunning
  end.

(** The test the watchdog makes at a tick, on what it has sampled: the
    counter it reads is the one it read last, a full [MediaTimeout] has
    passed since it last saw the counter change or was reset, and either the
    counter moved away from its value at the reset or the initial grace is
    over. *)
Definition tick_fires (st : State) (v : WatchVars) (now : Time) : Prop :=
  exists start,
    timeoutStart (mp st) = Some start /\
    packetCount (mp st) = lastPackets v /\
    MediaTimeout (opts (mp st)) <= time_Since now (lastTime v) /\
    (lastPackets v <> startPackets v \/
     MediaTimeoutInitial (opts (mp st)) <= time_Since now start).

(** A system whose watchdog is running and has sampled the current value of
    the counter, with a read loop waiting for packets and a handler for
    them. *)
Definition in_step (s : System) : Prop :=
  sys_watch s = WatchRunning /\
  sys_read s = ReadBlocked /\
  published (sys_state s) = true /\
  mediaTimeout (mp (sys_state s)) = false /\
  lastPackets (sys_vars s) = packetCount (mp (sys_state s)) /\
  0 <= packetCount (mp (sys_state s)) < 2 ^ 64.

(** A call under which [I] is stable, whether it returns or panics. *)
Definition preserves (I : State -> Prop) {A : Type} (m : Go A) : Prop :=
  forall st, I st -> I (snd (m st)).

(** A call that cannot mend the fuse. *)
Definition keeps_closed {A : Type} (m : Go A) : Prop :=
  preserves (fun st => closed (mp st) = true) m.

(** ** Views of the port *)

(** What [mu] guards, without the input switch: the stored configuration
    and session, the published handler and the outbound pipeline. *)
Definition wiring (p : MediaPort) :=
  (conf p, sess p, hnd p, audioInHandler p,
   (audioOutRTP p, dtmfOutRTP p, dtmfOutAudio p, sw_target (audioOut p))).

(** The outbound pipeline after [Close]. *)
Definition torn_down (st : State) : Prop :=
  closed (mp st) = true /\
  audioOutRTP (mp st) = None /\
  dtmfOutRTP (mp st) = None /\
  dtmfOutAudio (mp st) = None /\
  sw_target (audioOut (mp st)) = None.

(** [opt] as a list of zero or one element. *)
Definition one {A : Type} (opt : option A) : list A :=
  match opt with Some a => [a] | None => [] end.

(** The handler a published pointer holds. *)
Definition held (ptr : option (option Handler)) : list Handler :=
  match ptr with Some (Some h) => [h] | _ => [] end.

(** The sessions after [Close] of the one at index [i]. *)
Definition closed_at (i : option nat) (l : list Session) : list Session :=
  match i with
  | Some i =>
      match l !! i with
      | Some s => <[i := mkSession (s_secure s) true]> l
      | None => l
      end
  | None => l
  end.

(** The events that rewire the pipeline. *)
Definition rewires (e : Event) : bool :=
  match e with EvSetConfig _ | EvClose => true | _ => false end.

Section Calls.

Variable WriteToUDPAddrPort_result : bytes -> AddrPort -> Z * option error.
Variable srtp_NewSession_result : CryptoConfig -> option error.
Variable OpenWriteStream_result : nat -> option error.
Variable GetCurrentTimestamp : Stream -> Z.
Variable dtmf_Write_result : DTMFWrite -> option error.
Variable Handler_String : Handler -> string.

(** The call an event stands for, its result dropped. *)
Definition event_call (s : System) (e : Event) : Go unit :=
  match e with
  | EvSetConfig c =>
      SetConfig srtp_NewSession_result OpenWriteStream_result c;; ret tt
  | EvClose => Close
  | EvWriteAudioTo w => WriteAudioTo w
  | EvWriteDTMF ctx digits =>
      WriteDTMF GetCurrentTimestamp dtmf_Write_result ctx digits;; ret tt
  | EvSetDTMFAudio enabled => SetDTMFAudio enabled
  | EvHandleDTMF h => HandleDTMF h
  | EvEnableTimeout enabled now => EnableTimeout enabled now
  | EvDisableOut => DisableOut
  | EvEnableOut => EnableOut
  | EvWrite b => udpConn_Write WriteToUDPAddrPort_result b;; ret tt
  | EvRead n addr err => udpConn_Read n addr err;; ret tt
  | EvAccept answers => rtpLoop answers;; ret tt
  | EvPacket _ a =>
      rtpReadLoop Handler_String [] [a] (sys_readVars s);; ret tt
  | EvSelect c => timeoutLoop_iter c (sys_vars s);; ret tt
  end.

End Calls.

(** ** Counting modulo the width of the counters *)

(** [x] is [y] as an [atomic.Uint64]. *)
Definition congr64 (x y : Z) : Prop := (x - y) mod 2 ^ 64 = 0.

(** ** What an accept loop is told *)

(** The first error of [AcceptStream], if there is one. *)
Fixpoint first_failure (answers : list AcceptAnswer) : option error :=
  match answers with
  | [] => None
  | AcceptFailed err :: _ => Some err
  | Accepted _ _ :: rest => first_failure rest
  end.

(** An error that tells of a closed session: the loop leaves silently. *)
Definition closed_like (err : error) : bool :=
  is_net_ErrClosed err || strings_Contains (Error err) "closed".

(** ** The shape of a handler chain *)

(** The mux under the counting, closing and jitter wrappers of a chain: its
    default arm and its registrations, in order. *)
Fixpoint mux_of (h : Handler) : option (option Handler * list (Z * Handler)) :=
  match h with
  | Mux dflt arms => Some (dflt, arms)
  | NopCloser inner | HandleJitter inner | RTPHandlerCount inner _ =>
      mux_of inner
  | _ => None
  end.

(** The handler behind the counting and statistics wrappers of an arm. *)
Fixpoint arm_core (h : Handler) : Handler :=
  match h with
  | RTPHandlerCount inner _ => arm_core inner
  | RTPStatsHandler _ (Some inner) => arm_core inner
  | _ => h
  end.

(** ** Sequences of calls *)

(** [SetDst] with each of the addresses, in order. *)
Fixpoint SetDst_each (addrs : list AddrPort) : Go unit :=
  match addrs with
  | [] => ret tt
  | a :: rest => udpConn_SetDst a;; SetDst_each rest
  end.

(** The last valid address of a list, or [d] where there is none. *)
Fixpoint last_valid (d : option AddrPort) (addrs : list AddrPort)
  : option AddrPort :=
  match addrs with
  | [] => d
  | a :: rest => last_valid (if AddrPort_IsValid a then Some a else d) rest
  end.

(** ** Accounting of a read loop *)

(** Between [st] and [st'] the packets read were either handed to the
    published handler, giving [calls], or ignored, [ignored] of them; the
    counters moved accordingly. *)
Definition accounted (st st' : State) (calls : list HandleCall) (ignored : nat)
  : Prop :=
  handled (world st') = handled (world st) ++ calls /\
  Forall (fun c => hc_size c <= rtp_MTUSize /\
                   hnd (mp st) = Some (Some (hc_handler c))) calls /\
  congr64 (InputPackets (stats (mp st')))
          (InputPackets (stats (mp st)) + Z.of_nat (length calls)) /\
  congr64 (IgnoredPackets (stats (mp st')))
          (IgnoredPackets (stats (mp st)) + Z.of_nat ignored) /\
  congr64 (Packets (stats (mp st')))
          (Packets (stats (mp st)) + Z.of_nat (ignored + length calls)) /\
  congr64 (packetCount (mp st'))
          (packetCount (mp st) + Z.of_nat (ignored + length calls)) /\
  hnd (mp st') = hnd (mp st).

(** The packets read before the first read failure. *)
Fixpoint packets_before_failure (answers : list ReadAnswer) : nat :=
  match answers with
  | ReadPacket _ _ _ :: rest => S (packets_before_failure rest)
  | _ => O
  end.

(** ** Enabling the timeout *)

Definition enables (e : Event) : bool :=
  match e with EvEnableTimeout true _ => true | _ => false end.

(** ** Sample values used to exercise the statements *)

Definition socket_ok : bytes -> AddrPort -> Z * option error :=
  fun b _ => (len b, None).
Definition srtp_ok : CryptoConfig -> option error := fun _ => None.
Definition srtp_bad_key : CryptoConfig -> option error :=
  fun _ => Some (errors_New "srtp: bad key length").
Definition open_ok : nat -> option error := fun _ => None.
Definition ts_zero : Stream -> Z := fun _ => 0.
Definition dtmf_ok : DTMFWrite -> option error := fun _ => None.
Definition handler_name : Handler -> string := fun _ => "mux".

Definition pcmu : AudioCodec := mkCodec "PCMU" 8000.
Definition peer : AddrPort := mkAddrPort (Addr4 192 0 2 5) 30000.
Definition peer' : AddrPort := mkAddrPort (Addr4 192 0 2 9) 40000.
Definition conf_plain : MediaConf :=
  mkConf (mkAudio (Some pcmu) 0 101) peer None None.
Definition conf_plain' : MediaConf :=
  mkConf (mkAudio (Some pcmu) 0 101) peer' None None.
Definition conf_srtp : MediaConf :=
  mkConf (mkAudio (Some pcmu) 0 101) peer
         (Some (mkCrypto "AES_CM_128_HMAC_SHA1_80" [])) None.

(** A port as [NewMediaPortWith] makes it on a connection passed in. *)
Definition port0 : State :=
  let p := {|
    opts := defaultOptions None;
    externalIP := AddrZero;
    port := mkUdpConn 20000 None None false;
    mediaReceived := false;
    packetCount := 0;
    mediaTimeout := false;
    timeoutStart := None;
    timeoutReset := false;
    closed := false;
    stats := zeroStats;
    dtmfAudioEnabled := false;
    jitterEnabled := false;
    conf := None;
    sess := None;
    hnd := None;
    dtmfOutRTP := None;
    dtmfOutAudio := None;
    audioOutRTP := None;
    audioOut := mkSwitch 8000 None false;
    audioIn := mkSwitch 8000 None false;
    audioInHandler := None;
    dtmfIn := None |} in
  {| mp := p;
     world := set_logs [mkLog Debug "listening for media on UDP"
                              [("port", VInt 20000)]]
                (set_goroutines [GoTimeoutLoop] emptyWorld) |}.

Definition frame : bytes := [Byte.x80; Byte.x00; Byte.x00; Byte.x01].


(** The port after a first successful [SetConfig]. *)
Definition port1 : State :=
  snd (SetConfig srtp_ok open_ok (Some conf_plain) port0).

Definition hdr (ssrc seq : Z) : Header := mkHeader 0 seq (160 * seq) ssrc.

(** Two streams on one session, each delivering one 160-byte packet. *)
Definition two_streams : list AcceptAnswer := [Accepted 0 1111; Accepted 1 2222].

Definition packets_of (stream : nat) : list ReadAnswer :=
  match stream with
  | O => [ReadPacket (hdr 1111 1) 160 None]
  | _ => [ReadPacket (hdr 2222 1) 160 None]
  end.

(** The handler chain that [setupInput] publishes for [conf_plain]. *)
Definition chain1 : Handler :=
  NopCloser (RTPHandlerCount
    (Mux (Some (RTPStatsHandler "" None))
       [(0, RTPHandlerCount
              (RTPStatsHandler "PCMU"
                 (Some (DecodeRTP pcmu (SwitchRef AudioIn) 0))) CntAudio);
        (101, RTPHandlerCount
                (RTPStatsHandler "telephone-event" (Some DTMFHandlerFunc))
                CntDTMF)]) CntMux).

Definition sec (n : Z) : Time := n * Second.

Definition good_packet (seq : Z) : ReadAnswer := ReadPacket (hdr 1111 seq) 160 None.

(** The timeout is enabled at 0 s; packets are counted at 1 s and at 29 s,
    none in between; the watchdog ticks on time at 15 s and at 30 s. *)
Definition silent_gap : list Event :=
  [EvEnableTimeout true (sec 0); EvSelect (CaseReset (sec 0));
   EvPacket (sec 1) (good_packet 1);
   EvSelect (CaseTick (sec 15));
   EvPacket (sec 29) (good_packet 2);
   EvSelect (CaseTick (sec 30))].

(** [n] more tick periods with two packets each. *)
Fixpoint traffic (n : nat) (from : Time) : list Event :=
  match n with
  | O => []
  | S n' =>
      EvPacket (from + sec 7) (good_packet 3)
      :: EvPacket (from + sec 14) (good_packet 4)
      :: EvSelect (CaseTick (from + sec 15))
      :: traffic n' (from + sec 15)
  end.

(** No packet at all: the timeout is enabled at 0 s, ticks at 15 s and 30 s. *)
Definition silent_peer : list Event :=
  [EvEnableTimeout true (sec 0); EvSelect (CaseReset (sec 0));
   EvSelect (CaseTick (sec 15)); EvSelect (CaseTick (sec 30))].

(** One packet at 10 s, then silence. *)
Definition one_packet : list Event :=
  [EvEnableTimeout true (sec 0); EvSelect (CaseReset (sec 0));
   EvPacket (sec 10) (good_packet 1);
   EvSelect (CaseTick (sec 15)); EvSelect (CaseTick (sec 30))].

Definition run1 : System -> list Event -> System :=
  run socket_ok srtp_ok open_ok ts_zero dtmf_ok handler_name.

Definition port1_enabled : State := snd (EnableTimeout true (sec 0) port1).

Definition ticks : list SelectCase :=
  [CaseReset (sec 0); CaseTick (sec 15); CaseTick (sec 30); CaseTick (sec 45)].

(** * Properties *)

(** Unfolding of the plumbing of [Go]. *)
Ltac go_unfold :=
  cbv [bind ret gets panic deref modify_port modify_world logw spawn
       writer_Close handler_Close close_displaced] in *.

Example port0_is_new :
  NewMediaPortWith (Some 20000) (inl 0) None 8000 = inl port0.
Proof. reflexivity. Qed.

(** ** The UDP channel *)

Lemma udpConn_SetDst_valid (addr : AddrPort) (st : State) :
  AddrPort_IsValid addr = true ->
  exists l,
    udpConn_SetDst addr st =
      (Ret tt, {| mp := set_port (set_dst (Some addr) (port (mp st))) (mp st);
                  world := set_logs (logs (world st) ++ l) (world st) |}).
Proof.
  intros Hv. unfold udpConn_SetDst. rewrite Hv. go_unfold.
  destruct st as [p w]; simpl.
  destruct (dst (port p)) as [pv|].
  - destruct (AddrPort_IsValid pv); simpl.
    + destruct (decide (pv = addr)); simpl.
      * exists []. rewrite app_nil_r. destruct w; reflexivity.
      * eexists; reflexivity.
    + eexists; reflexivity.
  - eexists; reflexivity.
Qed.

Lemma udpConn_SetDst_invalid (addr : AddrPort) (st : State) :
  AddrPort_IsValid addr = false -> udpConn_SetDst addr st = (Ret tt, st).
Proof. intros Hv. unfold udpConn_SetDst. rewrite Hv. reflexivity. Qed.

(** C6. A write while the destination slot is unset succeeds with the full
    length of the buffer and hands nothing to the socket (the state, and
    with it the list of datagrams sent, is as before).  With the slot set
    the datagram goes to the socket for that destination, and [SetDst] with
    a valid address sets the slot, so that the next write goes there. *)
Theorem udpConn_Write_dst (wr : bytes -> AddrPort -> Z * option error)
  (b : bytes) (st : State) :
  (dst (port (mp st)) = None ->
     udpConn_Write wr b st = (Ret (len b, None), st)) /\
  (forall d, dst (port (mp st)) = Some d ->
     udpConn_Write wr b st =
       (Ret (wr b d),
        {| mp := mp st;
           world := set_sent (sent (world st) ++ [mkDatagram b d]) (world st) |})) /\
  (forall addr, AddrPort_IsValid addr = true ->
     let st1 := snd (udpConn_SetDst addr st) in
     dst (port (mp st1)) = Some addr /\
     fst (udpConn_Write wr b st1) = Ret (wr b addr) /\
     sent (world (snd (udpConn_Write wr b st1))) =
       sent (world st) ++ [mkDatagram b addr]).
Proof.
  split; [|split].
  - intros Hd. unfold udpConn_Write. go_unfold. rewrite Hd. reflexivity.
  - intros d Hd. unfold udpConn_Write, WriteToUDPAddrPort. go_unfold.
    rewrite Hd. reflexivity.
  - intros addr Hv. destruct (udpConn_SetDst_valid addr st Hv) as [l Hl].
    rewrite Hl. cbn [snd]. unfold udpConn_Write, WriteToUDPAddrPort. go_unfold.
    destruct st as [p w]. simpl. auto.
Qed.

Lemma udpConn_Write_dst_witness :
  udpConn_Write socket_ok frame port0 = (Ret (4, None), port0) /\
  sent (world (snd (udpConn_Write socket_ok frame
                      (snd (udpConn_SetDst peer port0))))) =
    [mkDatagram frame peer].
Proof.
  split.
  - apply (proj1 (udpConn_Write_dst socket_ok frame port0)). reflexivity.
  - apply (proj2 (proj2 (udpConn_Write_dst socket_ok frame port0)) peer).
    reflexivity.
Defined.

(** ** DTMF and audio plumbing *)

(** C9. With no outbound DTMF stream and no enabled DTMF audio output,
    [WriteDTMF] returns nil and leaves everything as it was: [dtmf.Write] is
    not called.  The same holds for the empty digit string, whatever the
    outputs. *)
Theorem WriteDTMF_noop (ts : Stream -> Z) (dw : DTMFWrite -> option error)
  (ctx : nat) (digits : string) (st : State) :
  digits = "" \/
  (dtmfOutRTP (mp st) = None /\
   (dtmfOutAudio (mp st) = None \/ dtmfAudioEnabled (mp st) = false)) ->
  WriteDTMF ts dw ctx digits st = (Ret None, st).
Proof.
  intros [-> | [Hr Ha]]; [reflexivity|].
  unfold WriteDTMF. destruct (decide _); [reflexivity|].
  go_unfold. rewrite Hr.
  destruct Ha as [Ha | Ha]; rewrite Ha.
  - destruct (negb _); reflexivity.
  - reflexivity.
Qed.

Lemma WriteDTMF_noop_witness :
  WriteDTMF ts_zero dtmf_ok 0 "12#" port0 = (Ret None, port0).
Proof.
  apply WriteDTMF_noop. right. split; [reflexivity | left; reflexivity].
Defined.

(** C10. [WriteAudioTo] on a port that has no stored configuration panics
    on the nil dereference of [p.conf], before it touches anything; a port
    is built without one, so the call needs an earlier [SetConfig] that got
    as far as storing it.  With a stored configuration it returns. *)
Theorem WriteAudioTo_needs_conf (w : option PCM16Writer) (st : State) :
  (conf (mp st) = None ->
     WriteAudioTo w st = (Panicked nilDereference, st)) /\
  (forall c, conf (mp st) = Some c ->
     exists st', WriteAudioTo w st = (Ret tt, st')) /\
  (forall conn listen o rate st0,
     NewMediaPortWith conn listen o rate = inl st0 -> conf (mp st0) = None).
Proof.
  split; [|split].
  - intros Hc. unfold WriteAudioTo. go_unfold. rewrite Hc. reflexivity.
  - intros c Hc. unfold WriteAudioTo, SwitchWriter_Swap. go_unfold.
    rewrite Hc. simpl.
    destruct (sw_target (audioIn (mp st))); eexists; reflexivity.
  - intros conn listen o rate st0. unfold NewMediaPortWith.
    destruct (match conn with Some c => inl c | None => listen end);
      [|discriminate].
    intros [= <-]. reflexivity.
Qed.

Lemma WriteAudioTo_needs_conf_witness :
  WriteAudioTo (Some (ExternalWriter 0)) port0 = (Panicked nilDereference, port0).
Proof.
  apply (proj1 (WriteAudioTo_needs_conf (Some (ExternalWriter 0)) port0)).
  reflexivity.
Defined.

(** ** [SetConfig] *)

Lemma set_dst_same (p : MediaPort) :
  set_port (set_dst (dst (port p)) (port p)) p = p.
Proof. destruct p as [? ? [? ? ? ?]]; reflexivity. Qed.

Lemma set_logs_nil (w : World) : set_logs (logs w ++ []) w = w.
Proof. rewrite app_nil_r. destruct w; reflexivity. Qed.

(** [SetDst], whatever the address: only the slot and the log change. *)
Lemma udpConn_SetDst_effect (addr : AddrPort) (st : State) :
  exists l,
    udpConn_SetDst addr st =
      (Ret tt,
       {| mp := set_port
                  (set_dst (if AddrPort_IsValid addr then Some addr
                            else dst (port (mp st))) (port (mp st))) (mp st);
          world := set_logs (logs (world st) ++ l) (world st) |}).
Proof.
  destruct (AddrPort_IsValid addr) eqn:Hv.
  - apply udpConn_SetDst_valid, Hv.
  - exists []. rewrite (udpConn_SetDst_invalid _ _ Hv), set_dst_same, set_logs_nil.
    destruct st; reflexivity.
Qed.

(** C1, as the code has it.  When the construction of the SRTP session
    fails, [SetConfig] returns that error; the stored configuration, the
    session, the handler pointer and all other fields of the port are as
    before, no session is created and no goroutine is started.  The
    destination of the UDP channel is the exception: it was written before
    the session was built, so it is the remote address of the rejected
    configuration whenever that address is valid. *)
Theorem SetConfig_srtp_failure
  (srtp : CryptoConfig -> option error) (ows : nat -> option error)
  (c : MediaConf) (k : CryptoConfig) (codec : AudioCodec) (err : error)
  (st : State) :
  closed (mp st) = false ->
  Codec (Audio c) = Some codec ->
  Crypto c = Some k ->
  srtp k = Some err ->
  exists st',
    SetConfig srtp ows (Some c) st = (Ret (Some err), st') /\
    conf (mp st') = conf (mp st) /\
    sess (mp st') = sess (mp st) /\
    hnd (mp st') = hnd (mp st) /\
    dst (port (mp st')) =
      (if AddrPort_IsValid (Remote c) then Some (Remote c)
       else dst (port (mp st))) /\
    mp st' = set_port (set_dst (dst (port (mp st'))) (port (mp st))) (mp st) /\
    sessions (world st') = sessions (world st) /\
    goroutines (world st') = goroutines (world st).
Proof.
  intros Hcl Hcodec Hk Herr.
  unfold SetConfig. unfold bind at 1, gets at 1. rewrite Hcl.
  unfold bind at 1, deref at 1, ret at 1.
  unfold bind at 1, deref at 1. rewrite Hcodec. unfold ret at 1.
  unfold bind at 1, logw at 1, modify_world at 1.
  unfold bind at 1.
  match goal with
  | |- context [udpConn_SetDst ?a ?s] =>
      destruct (udpConn_SetDst_effect a s) as [l Hl]; rewrite Hl
  end.
  rewrite Hk, Herr. unfold bind, ret. cbn [mp world].
  eexists. split; [reflexivity|].
  destruct st as [p w]; cbn. repeat split; reflexivity.
Qed.

Lemma SetConfig_srtp_failure_witness :
  exists st',
    SetConfig srtp_bad_key open_ok (Some conf_srtp) port0 =
      (Ret (Some (errors_New "srtp: bad key length")), st') /\
    conf (mp st') = None /\ sess (mp st') = None /\ hnd (mp st') = None.
Proof.
  destruct (SetConfig_srtp_failure srtp_bad_key open_ok conf_srtp
              (mkCrypto "AES_CM_128_HMAC_SHA1_80" []) pcmu
              (errors_New "srtp: bad key length") port0)
    as (st' & H & Hc & Hs & Hh & _).
  - reflexivity.
  - reflexivity.
  - reflexivity.
  - reflexivity.
  - exists st'. repeat split; assumption.
Defined.

(** C1, as stated, fails on a new port: after the rejected call the
    destination is the peer of the rejected configuration, where it was
    unset before. *)
Lemma SetConfig_srtp_failure_publishes_dst :
  fst (SetConfig srtp_bad_key open_ok (Some conf_srtp) port0) =
    Ret (Some (errors_New "srtp: bad key length")) /\
  dst (port (mp port0)) = None /\
  dst (port (mp (snd (SetConfig srtp_bad_key open_ok (Some conf_srtp) port0)))) =
    Some peer.
Proof. vm_compute. repeat split. Qed.

(** The session a successful [SetConfig] leaves behind. *)
Lemma SetConfig_success
  (srtp : CryptoConfig -> option error) (ows : nat -> option error)
  (c : option MediaConf) (st st' : State) :
  SetConfig srtp ows c st = (Ret None, st') ->
  let new := length (sessions (world st)) in
  sess (mp st') = Some new /\
  conf (mp st') = c /\
  (exists secure,
     sessions (world st') = sessions (world st) ++ [mkSession secure false]) /\
  goroutines (world st') = goroutines (world st) ++ [GoRtpLoop new].
Proof.
  destruct st as [p w].
  unfold SetConfig, setupOutput, setupInput, new_session, SwitchWriter_Swap.
  go_unfold. cbn [mp world].
  intros H.
  repeat (match type of H with
          | context [udpConn_SetDst ?a ?s] =>
              let Hl := fresh in
              destruct (udpConn_SetDst_effect a s) as [? Hl];
              rewrite Hl in H; clear Hl
          | context [match ?x with _ => _ end] =>
              lazymatch x with
              | context [match _ with _ => _ end] => fail
              | _ => destruct x eqn:?
              end
          end; cbn in H; try discriminate H);
    injection H as <-; cbn; repeat split; eauto.
Qed.

(** C7, as the code has it.  A successful [SetConfig] on a port that has a
    session stores a session created by the call in its place and starts an
    accept loop on it.  The prior session is not closed: the call leaves it
    exactly as it was. *)
Theorem SetConfig_replaces_session
  (srtp : CryptoConfig -> option error) (ows : nat -> option error)
  (c : option MediaConf) (st st' : State) (i : nat) (s : Session) :
  sess (mp st) = Some i ->
  sessions (world st) !! i = Some s ->
  SetConfig srtp ows c st = (Ret None, st') ->
  let new := length (sessions (world st)) in
  sess (mp st') = Some new /\
  new <> i /\
  (exists secure, sessions (world st') !! new = Some (mkSession secure false)) /\
  sessions (world st') !! i = Some s /\
  goroutines (world st') = goroutines (world st) ++ [GoRtpLoop new].
Proof.
  intros Hi Hs H new.
  destruct (SetConfig_success _ _ _ _ _ H) as (Hnew & Hc & [secure Hss] & Hg).
  fold new in Hnew, Hg.
  assert (Hlt : (i < new)%nat) by (eapply lookup_lt_Some; eauto).
  repeat split; try assumption.
  - lia.
  - exists secure. rewrite Hss. apply list_lookup_middle. reflexivity.
  - rewrite Hss. rewrite lookup_app_l by exact Hlt. exact Hs.
Qed.

Lemma SetConfig_replaces_session_witness :
  let st1 := snd (SetConfig srtp_ok open_ok (Some conf_plain) port0) in
  let st2 := snd (SetConfig srtp_ok open_ok (Some conf_plain') st1) in
  sess (mp st2) = Some 1%nat /\
  sessions (world st2) !! 0%nat = Some (mkSession false false).
Proof.
  intros st1 st2.
  destruct (SetConfig_replaces_session srtp_ok open_ok (Some conf_plain')
              st1 st2 0%nat (mkSession false false))
    as (Hnew & _ & _ & Hold & _).
  - vm_compute. reflexivity.
  - vm_compute. reflexivity.
  - vm_compute. reflexivity.
  - split; [exact Hnew | exact Hold].
Defined.

(** C7, as stated, fails: after a second [SetConfig] the session of the
    first one is still open. *)
Lemma SetConfig_leaves_prior_session_open :
  let st1 := snd (SetConfig srtp_ok open_ok (Some conf_plain) port0) in
  let r := SetConfig srtp_ok open_ok (Some conf_plain') st1 in
  sess (mp st1) = Some 0%nat /\
  fst r = Ret None /\
  sess (mp (snd r)) = Some 1%nat /\
  (s_closed <$> sessions (world (snd r)) !! 0%nat) = Some false.
Proof. vm_compute. repeat split. Qed.


(** ** Invariants of calls *)

Section Preserves.

Variable I : State -> Prop.

Lemma preserves_ret {A : Type} (a : A) : preserves I (ret a).
Proof. intros st H; exact H. Qed.

Lemma preserves_panic {A : Type} (why : string) : preserves I (@panic A why).
Proof. intros st H; exact H. Qed.

Lemma preserves_gets {A : Type} (f : MediaPort -> A) : preserves I (gets f).
Proof. intros st H; exact H. Qed.

Lemma preserves_deref {A : Type} (ptr : option A) : preserves I (deref ptr).
Proof. destruct ptr; intros st H; exact H. Qed.

Lemma preserves_bind {A B : Type} (m : Go A) (f : A -> Go B) :
  preserves I m -> (forall a, preserves I (f a)) -> preserves I (bind m f).
Proof.
  intros Hm Hf st H. unfold bind. specialize (Hm st H).
  destruct (m st) as [[a | why] st1]; cbn in *; [apply Hf|]; exact Hm.
Qed.

Lemma preserves_modify_port (f : MediaPort -> MediaPort) :
  (forall p w, I (mkState p w) -> I (mkState (f p) w)) ->
  preserves I (modify_port f).
Proof. intros Hf [p w] H. cbn. apply Hf, H. Qed.

Lemma preserves_modify_world (f : World -> World) :
  (forall p w, I (mkState p w) -> I (mkState p (f w))) ->
  preserves I (modify_world f).
Proof. intros Hf [p w] H. cbn. apply Hf, H. Qed.

End Preserves.

(** Walks through a call one statement at a time; [side] settles what a
    field update does to the invariant. *)
Ltac preserve_with side :=
  repeat first
    [ apply preserves_bind; [|intros ?]
    | apply preserves_ret
    | apply preserves_panic
    | apply preserves_gets
    | apply preserves_deref
    | apply preserves_modify_port; intros ? ? ?; side
    | apply preserves_modify_world; intros ? ? ?; side
    | match goal with
      | |- preserves _ (if ?b then _ else _) => destruct b
      | |- preserves _ (match ?x with _ => _ end) => destruct x
      | |- preserves _ (let _ := _ in _) => cbv zeta
      end ].

(** ** The closed fuse *)

Lemma closed_set_switch (which : SwitchName) (s : SwitchWriter) (p : MediaPort) :
  closed (set_switch which s p) = closed p.
Proof. destruct which; reflexivity. Qed.

Ltac keeps :=
  unfold keeps_closed;
  preserve_with ltac:(cbn in *;
                      first [ assumption | reflexivity
                            | rewrite closed_set_switch; assumption ]).

Lemma keeps_logw l msg kv : keeps_closed (logw l msg kv).
Proof. unfold logw. keeps. Qed.

Lemma keeps_SetDst addr : keeps_closed (udpConn_SetDst addr).
Proof. unfold udpConn_SetDst. keeps; try apply keeps_logw. Qed.

Lemma keeps_Swap which w : keeps_closed (SwitchWriter_Swap which w).
Proof. unfold SwitchWriter_Swap. keeps. Qed.

Lemma keeps_close_displaced w : keeps_closed (close_displaced w).
Proof. unfold close_displaced, writer_Close. keeps. Qed.

Lemma keeps_stats_add g s : keeps_closed (stats_add g s).
Proof. unfold stats_add. keeps. Qed.

Lemma keeps_SetConfig srtp ows c : keeps_closed (SetConfig srtp ows c).
Proof.
  intros st H. cbn in H. unfold SetConfig, bind at 1, gets at 1.
  rewrite H. exact H.
Qed.

Lemma keeps_Close : keeps_closed Close.
Proof.
  intros st H. cbn in H. unfold Close, bind at 1, gets at 1.
  rewrite H. exact H.
Qed.

Lemma keeps_WriteAudioTo w : keeps_closed (WriteAudioTo w).
Proof.
  unfold WriteAudioTo. keeps; first [apply keeps_Swap | apply keeps_close_displaced].
Qed.

Lemma keeps_WriteDTMF ts dw ctx digits :
  keeps_closed (WriteDTMF ts dw ctx digits).
Proof. unfold WriteDTMF, dtmf_Write. keeps. Qed.

Lemma keeps_EnableTimeout enabled now : keeps_closed (EnableTimeout enabled now).
Proof. unfold EnableTimeout. keeps; try apply keeps_logw. Qed.

Lemma keeps_Write wr b : keeps_closed (udpConn_Write wr b).
Proof. unfold udpConn_Write, WriteToUDPAddrPort. keeps. Qed.

Lemma keeps_Read n addr err : keeps_closed (udpConn_Read n addr err).
Proof. unfold udpConn_Read. keeps; try apply keeps_logw. Qed.

Lemma keeps_rtpLoop answers : keeps_closed (rtpLoop answers).
Proof.
  induction answers as [|[r ssrc | err] rest IH]; cbn [rtpLoop].
  - keeps.
  - unfold mediaReceived_Break, spawn.
    keeps; first [apply keeps_stats_add | apply keeps_logw | exact IH].
  - keeps; try apply keeps_logw.
Qed.

Lemma keeps_rtpReadLoop hs log answers v :
  keeps_closed (rtpReadLoop hs log answers v).
Proof.
  revert v. induction answers as [|[err | h n handle] rest IH]; intros v;
    cbn [rtpReadLoop].
  - keeps.
  - keeps; try apply keeps_logw.
  - unfold count_packet, HandleRTP.
    keeps; first [apply keeps_stats_add | apply keeps_logw | apply IH].
Qed.

Lemma keeps_timeoutLoop_iter c v : keeps_closed (timeoutLoop_iter c v).
Proof.
  unfold timeoutLoop_iter, timeoutCallback. keeps; try apply keeps_logw.
Qed.

Lemma step_keeps_closed wr srtp ows ts dw hs (s : System) (e : Event) :
  closed (mp (sys_state s)) = true ->
  closed (mp (sys_state (step wr srtp ows ts dw hs s e))) = true.
Proof.
  unfold keeps_closed, preserves in *.
  intros H. destruct e; cbn [step exec sys_state].
  - apply keeps_SetConfig, H.
  - apply keeps_Close, H.
  - apply keeps_WriteAudioTo, H.
  - apply keeps_WriteDTMF, H.
  - exact H.
  - exact H.
  - apply keeps_EnableTimeout, H.
  - exact H.
  - exact H.
  - apply keeps_Write, H.
  - apply keeps_Read, H.
  - apply keeps_rtpLoop, H.
  - destruct (sys_read s); try exact H.
    pose proof (keeps_rtpReadLoop hs [] [a] (sys_readVars s) _ H) as K.
    destruct (rtpReadLoop _ _ _ _ _) as [[[x v] | why] st1]; exact K.
  - destruct (sys_watch s); try exact H.
    pose proof (keeps_timeoutLoop_iter c (sys_vars s) _ H) as K.
    destruct (timeoutLoop_iter _ _ _) as [[[x v] | why] st1]; exact K.
Qed.

Lemma run_keeps_closed wr srtp ows ts dw hs (es : list Event) (s : System) :
  closed (mp (sys_state s)) = true ->
  closed (mp (sys_state (run wr srtp ows ts dw hs s es))) = true.
Proof.
  revert s. induction es as [|e es IH]; intros s H; cbn.
  - exact H.
  - apply IH, step_keeps_closed, H.
Qed.

Lemma Close_breaks_fuse (st st1 : State) :
  Close st = (Ret tt, st1) -> closed (mp st1) = true.
Proof.
  destruct st as [p w]. unfold Close, SwitchWriter_Swap, session_Close,
    udpConn_Close.
  go_unfold. cbn [mp world]. intros H.
  repeat (match type of H with
          | context [match ?x with _ => _ end] =>
              lazymatch x with
              | context [match _ with _ => _ end] => fail
              | _ => destruct x eqn:?
              end
          end; cbn in H; try discriminate H);
    injection H as <-; first [assumption | reflexivity].
Qed.

(** C8. Once [Close] has returned, [SetConfig] fails with the error of a
    closed port, for every argument (nil included) and without touching the
    port, however many other calls and goroutine steps come in between:
    nothing mends the fuse. *)
Theorem SetConfig_after_Close
  (wr : bytes -> AddrPort -> Z * option error)
  (srtp : CryptoConfig -> option error) (ows : nat -> option error)
  (ts : Stream -> Z) (dw : DTMFWrite -> option error)
  (hs : Handler -> string)
  (s : System) (st1 : State) (es : list Event) (c : option MediaConf) :
  Close (sys_state s) = (Ret tt, st1) ->
  let s' := run wr srtp ows ts dw hs
              (mkSystem st1 (sys_watch s) (sys_vars s) (sys_read s)
                        (sys_readVars s)) es in
  closed (mp (sys_state s')) = true /\
  SetConfig srtp ows c (sys_state s') =
    (Ret (Some errMediaClosed), sys_state s').
Proof.
  intros H s'.
  assert (Hc : closed (mp (sys_state s')) = true).
  { apply run_keeps_closed. cbn. eapply Close_breaks_fuse, H. }
  split; [exact Hc|].
  unfold SetConfig, bind at 1, gets at 1. rewrite Hc. reflexivity.
Qed.

Lemma SetConfig_after_Close_witness :
  let st1 := snd (Close port1) in
  let s' := run socket_ok srtp_ok open_ok ts_zero dtmf_ok handler_name
              (start st1)
              [EvEnableTimeout true 0; EvWrite frame;
               EvSetConfig (Some conf_plain'); EvClose] in
  closed (mp (sys_state s')) = true /\
  SetConfig srtp_ok open_ok (Some conf_srtp) (sys_state s') =
    (Ret (Some errMediaClosed), sys_state s').
Proof.
  intros st1.
  apply (SetConfig_after_Close socket_ok srtp_ok open_ok ts_zero dtmf_ok
           handler_name (start port1) st1).
  vm_compute. reflexivity.
Defined.

(** ** The accept loop *)

Lemma count_msg_app (m : string) (l1 l2 : list LogEntry) :
  count_msg m (l1 ++ l2) = (count_msg m l1 + count_msg m l2)%nat.
Proof. unfold count_msg. rewrite filter_app, length_app. reflexivity. Qed.

Lemma count_msg_snoc_same (m : string) (l : list LogEntry) (e : LogEntry) :
  message e = m -> count_msg m (l ++ [e]) = S (count_msg m l).
Proof.
  intros H. rewrite count_msg_app. unfold count_msg at 2.
  rewrite filter_cons_True by exact H. cbn. lia.
Qed.

Lemma count_msg_snoc_other (m : string) (l : list LogEntry) (e : LogEntry) :
  message e <> m -> count_msg m (l ++ [e]) = count_msg m l.
Proof.
  intros H. rewrite count_msg_app. unfold count_msg at 2.
  rewrite filter_cons_False by exact H. cbn. lia.
Qed.

Lemma rtpLoop_spawns (answers : list AcceptAnswer) (st : State) :
  let st' := snd (rtpLoop answers st) in
  goroutines (world st') =
    goroutines (world st) ++ map read_loop_of (accepted answers) /\
  count_msg "accepting RTP stream" (logs (world st')) =
    (count_msg "accepting RTP stream" (logs (world st))
     + length (accepted answers))%nat.
Proof.
  revert st. induction answers as [|[r ssrc | err] rest IH]; intros st.
  - cbn. rewrite app_nil_r. split; [reflexivity | lia].
  - cbn [rtpLoop accepted map length].
    unfold stats_add, mediaReceived_Break. go_unfold.
    destruct st as [p w]. cbn [mp world].
    match goal with |- context [rtpLoop rest ?s] => specialize (IH s) end.
    cbv zeta in IH. destruct IH as [IHg IHl]. cbn [snd] in *.
    rewrite IHg, IHl. cbn [world goroutines set_goroutines set_logs logs].
    rewrite count_msg_snoc_same by reflexivity.
    rewrite <- app_assoc. split; [reflexivity | lia].
  - cbn [rtpLoop accepted map length]. go_unfold.
    destruct (_ && _); cbn [snd world goroutines logs set_logs];
      rewrite ?app_nil_r, ?count_msg_snoc_other by discriminate;
      split; try reflexivity; lia.
Qed.

(** ** The read loop, one packet at a time *)

Lemma int_incr_small (x : Z) : 0 <= x < 2 ^ 62 -> int_incr x = x + 1.
Proof.
  intros H. unfold int_incr.
  rewrite Z.mod_small; [lia|].
  change (2 ^ 62) with 4611686018427387904 in H.
  change (2 ^ 63) with 9223372036854775808.
  change (2 ^ 64) with 18446744073709551616. lia.
Qed.

Ltac read_step :=
  cbn [rtpReadLoop]; unfold count_packet, stats_add, HandleRTP; go_unfold;
  cbn [mp world]; simpl (hnd _).

(** An oversize packet, or one that finds no handler, is counted as ignored
    and goes nowhere; the error counter is not touched. *)
Lemma rtpReadLoop_ignored hs log h n handle rest v (st : State) :
  n > rtp_MTUSize \/ published st = false ->
  exists v1 st1,
    rtpReadLoop hs log (ReadPacket h n handle :: rest) v st =
      rtpReadLoop hs log rest v1 st1 /\
    errorCnt v1 = errorCnt v /\
    hnd (mp st1) = hnd (mp st) /\
    handled (world st1) = handled (world st) /\
    logs (world st1) = logs (world st) /\
    IgnoredPackets (stats (mp st1)) =
      uint64_add (IgnoredPackets (stats (mp st))) 1.
Proof.
  intros H. destruct st as [p w]. read_step.
  destruct (n >? rtp_MTUSize) eqn:Hn.
  - cbv zeta. cbn [overflow negb].
    do 2 eexists. split; [reflexivity|]. cbn. repeat split.
  - destruct H as [H | H]; [lia|].
    unfold published in H. cbn in H.
    simpl (hnd _).
    destruct (hnd p) as [[hd|]|] eqn:Hh; [discriminate| |];
      do 2 eexists; (split; [reflexivity|]); cbn; repeat split;
      exact Hh.
Qed.

(** A packet within the MTU that finds a handler is handed to it. *)
Lemma rtpReadLoop_dispatch hs log h n handle rest v (st : State) hd :
  n <= rtp_MTUSize ->
  hnd (mp st) = Some (Some hd) ->
  exists st1,
    hnd (mp st1) = hnd (mp st) /\
    handled (world st1) = handled (world st) ++ [mkHandleCall hd h n] /\
    InputPackets (stats (mp st1)) = uint64_add (InputPackets (stats (mp st))) 1 /\
    rtpReadLoop hs log (ReadPacket h n handle :: rest) v st =
      match handle with
      | None => rtpReadLoop hs log rest (mkReadVars (overflow v) "" 0) st1
      | Some err =>
          let pl := if decide (pipeline v = "") then hs hd else pipeline v in
          let v1 := mkReadVars (overflow v) pl (int_incr (errorCnt v)) in
          if errorCnt v1 >=? maxErrors then
            (Ret (ReadKilled, v1),
             snd ((logw Debug "handle RTP failed"
                     (log ++ [("payloadSize", VInt n); ("rtpHeader", VHeader h);
                              ("pipeline", VStr pl);
                              ("errorCount", VInt (errorCnt v));
                              ("error", VErr (Some err))]);;
                   logw Err "killing RTP loop due to persisted errors"
                     (log ++ [("payloadSize", VInt n); ("rtpHeader", VHeader h);
                              ("pipeline", VStr pl);
                              ("errorCount", VInt (errorCnt v));
                              ("error", VErr (Some err))])) st1))
          else
            rtpReadLoop hs log rest v1
              (snd (logw Debug "handle RTP failed"
                      (log ++ [("payloadSize", VInt n); ("rtpHeader", VHeader h);
                               ("pipeline", VStr pl);
                               ("errorCount", VInt (errorCnt v));
                               ("error", VErr (Some err))]) st1))
      end.
Proof.
  intros Hn Hh. destruct st as [p w]. cbn in Hh.
  eexists. split; [|split; [|split]]; cycle 3.
  - read_step.
    replace (n >? rtp_MTUSize) with false 
      by (symmetry; rewrite Z.gtb_ltb; apply Z.ltb_ge; exact Hn).
    simpl (hnd _). rewrite Hh. cbn [mp world].
    destruct handle as [err|]; [|reflexivity].
    cbv zeta. cbn [errorCnt]. rewrite <- !app_assoc. cbn [app].
    destruct (int_incr (errorCnt v) >=? maxErrors); reflexivity.
  - cbn. exact eq_refl.
  - cbn. reflexivity.
  - cbn. reflexivity.
Qed.

Lemma published_hnd (st st1 : State) :
  hnd (mp st1) = hnd (mp st) -> published st1 = published st.
Proof. unfold published. intros ->. reflexivity. Qed.

Lemma published_logw l msg kv (st : State) :
  published (snd (logw l msg kv st)) = published st.
Proof. reflexivity. Qed.

(** The loop leaves through the kill exactly when the run of failures it
    is counting gets to fifty. *)
Lemma rtpReadLoop_killed_reaches hs log (answers : list ReadAnswer) :
  forall (v : ReadVars) (st : State),
    0 <= errorCnt v < maxErrors ->
    read_exit (rtpReadLoop hs log answers v st) = ReadKilled <->
    run_reaches_max (Z.to_nat (errorCnt v))
      (handler_failures (published st) answers) = true.
Proof.
  unfold maxErrors.
  induction answers as [|[err | h n handle] rest IH]; intros v st Hv.
  - cbn. split; discriminate.
  - cbn [rtpReadLoop handler_failures run_reaches_max].
    destruct (decide (err = io_EOF)); cbn; split; discriminate.
  - cbn [handler_failures].
    destruct (n >? rtp_MTUSize) eqn:Hn; cbn [orb].
    { destruct (rtpReadLoop_ignored hs log h n handle rest v st)
        as (v1 & st1 & -> & Hc & Hh & _); [left; lia|].
      specialize (IH v1 st1). rewrite Hc, (published_hnd _ _ Hh) in IH.
      apply IH, Hv. }
    destruct (published st) eqn:Hp; cbn [negb].
    2:{ destruct (rtpReadLoop_ignored hs log h n handle rest v st)
          as (v1 & st1 & -> & Hc & Hh & _); [right; exact Hp|].
        specialize (IH v1 st1). rewrite Hc, (published_hnd _ _ Hh), Hp in IH.
        apply IH, Hv. }
    assert (Hhd : exists hd, hnd (mp st) = Some (Some hd)).
    { unfold published in Hp. destruct (hnd (mp st)) as [[hd|]|];
        try discriminate. eauto. }
    destruct Hhd as [hd Hhd].
    destruct (rtpReadLoop_dispatch hs log h n handle rest v st hd)
      as (st1 & Hh & _ & _ & ->); [lia | exact Hhd |].
    pose proof (published_hnd _ _ Hh) as Hp1. rewrite Hp in Hp1.
    destruct handle as [err|]; cbn [run_reaches_max].
    + cbv zeta. cbn [errorCnt]. change maxErrors with 50.
      rewrite int_incr_small by (change (2 ^ 62) with 4611686018427387904; lia).
      destruct (errorCnt v + 1 >=? 50) eqn:Hk.
      * replace (50 <=? S (Z.to_nat (errorCnt v)))%nat with true
          by (symmetry; apply Nat.leb_le; lia).
        cbn. split; reflexivity.
      * replace (50 <=? S (Z.to_nat (errorCnt v)))%nat with false
          by (symmetry; apply Nat.leb_gt; lia).
        replace (S (Z.to_nat (errorCnt v))) with (Z.to_nat (errorCnt v + 1))
          by lia.
        match goal with
        | |- read_exit (rtpReadLoop _ _ _ ?v1 ?s1) = _ <-> _ =>
            specialize (IH v1 s1)
        end.
        rewrite published_logw, Hp1 in IH. cbn [errorCnt] in IH.
        apply IH. lia.
    + specialize (IH (mkReadVars (overflow v) "" 0) st1).
      rewrite Hp1 in IH. apply IH. cbn. lia.
Qed.

(** ** Runs of failures *)

Lemma repeat_app_cons {A : Type} (a : A) (n : nat) (l : list A) :
  repeat a n ++ a :: l = repeat a (S n) ++ l.
Proof.
  induction n as [|n IH]; [reflexivity|].
  cbn [repeat app] in *. rewrite IH. reflexivity.
Qed.

Lemma true_prefix_le (a b : nat) (l post : list bool) :
  repeat true a ++ false :: l = repeat true b ++ post -> (b <= a)%nat.
Proof.
  revert b. induction a as [|a IH]; intros [|b] H; try lia.
  - discriminate H.
  - injection H as H. apply IH in H. lia.
Qed.

Lemma run_after_failure (c : nat) (l pre post : list bool) :
  (c < 50)%nat ->
  repeat true c ++ false :: l = pre ++ repeat true 50 ++ post ->
  exists pre', l = pre' ++ repeat true 50 ++ post.
Proof.
  revert pre. induction c as [|c IH]; intros pre Hc H.
  - destruct pre as [|x pre]; [discriminate H|].
    injection H as _ H. eauto.
  - destruct pre as [|x pre].
    + change (true :: (repeat true c ++ false :: l) =
              true :: (repeat true 49 ++ post)) in H.
      injection H as H. apply (true_prefix_le c 49) in H. lia.
    + change (true :: (repeat true c ++ false :: l) =
              x :: (pre ++ repeat true 50 ++ post)) in H.
      injection H as _ H. apply (IH pre); [lia | exact H].
Qed.

(** The counter gets to fifty exactly when fifty failures stand in a row. *)
Lemma run_reaches_max_spec (l : list bool) :
  forall c : nat,
    (c < 50)%nat ->
    run_reaches_max c l = true <->
    exists pre post, repeat true c ++ l = pre ++ repeat true 50 ++ post.
Proof.
  induction l as [|[|] l IH]; intros c Hc; cbn [run_reaches_max].
  - split; [discriminate|]. intros (pre & post & H).
    apply (f_equal (@length bool)) in H.
    rewrite !length_app, !repeat_length in H. cbn in H. lia.
  - destruct (50 <=? S c)%nat eqn:Hk.
    + apply Nat.leb_le in Hk. assert (c = 49%nat) as -> by lia.
      split; [|reflexivity]. intros _. exists [], l.
      rewrite repeat_app_cons. reflexivity.
    + apply Nat.leb_gt in Hk. rewrite repeat_app_cons. apply IH. lia.
  - rewrite (IH 0%nat) by lia. cbn [repeat app]. split.
    + intros (pre & post & ->). exists (repeat true c ++ false :: pre), post.
      rewrite <- app_assoc. reflexivity.
    + intros (pre & post & H).
      destruct (run_after_failure c l pre post Hc H) as [pre' ->]. eauto.
Qed.

(** ** What the loops do with streams and packets *)




(** The earlier revision of the accept loop did what C2 says. *)
Example rtpLoop_v1_reads_first_stream_only :
  let st' :=
    snd (serve handler_name (rtpLoop_v1 true) two_streams packets_of port1) in
  drop (length (goroutines (world port1))) (goroutines (world st')) =
    [GoRtpReadLoop 1111 0] /\
  map (fun c => SSRC (hc_header c)) (handled (world st')) = [1111] /\
  count_msg "ignoring media" (logs (world st')) = 1%nat.
Proof. vm_compute. repeat split. Qed.

(** No read loop ever writes the oversize message. *)
Lemma rtpReadLoop_never_logs_oversize hs log (answers : list ReadAnswer) (k : nat) :
  forall v : ReadVars,
    preserves (fun st => count_msg msgOversize (logs (world st)) = k)
              (rtpReadLoop hs log answers v).
Proof.
  induction answers as [|[err | h n handle] rest IH]; intros v;
    cbn [rtpReadLoop]; cbv zeta; cbn [overflow negb];
    unfold count_packet, stats_add, HandleRTP;
    preserve_with ltac:(cbn [world logs set_logs set_handled] in *;
                        rewrite ?count_msg_snoc_other by discriminate;
                        assumption);
    apply IH.
Qed.

(** C3 on the code.  A stream whose first packet has 1501 bytes: the packet
    is counted as ignored and handed to nobody, the loop goes on, but the
    log has no oversize entry.  The flag is set just before it is tested,
    so no read loop logs the condition for any packet: the count of such
    entries is the same after a read loop as before it. *)
Theorem rtpReadLoop_oversize_not_logged :
  (let r := rtpReadLoop handler_name [("ssrc", VInt 1111)]
              [ReadPacket (hdr 1111 1) 1501 None] readVars0 port1 in
   fst r = Ret (ReadBlocked, mkReadVars true "" 0) /\
   IgnoredPackets (stats (mp (snd r))) = 1 /\
   handled (world (snd r)) = [] /\
   count_msg msgOversize (logs (world (snd r))) = 0%nat) /\
  (forall hs log answers v st,
     count_msg msgOversize (logs (world (snd (rtpReadLoop hs log answers v st)))) =
       count_msg msgOversize (logs (world st))).
Proof.
  split.
  - vm_compute. repeat split.
  - intros hs log answers v st.
    apply (rtpReadLoop_never_logs_oversize hs log answers _ v st). reflexivity.
Qed.

(** C5.  From a fresh counter the loop leaves through the kill exactly when
    the handler fails fifty times in a row on the packets handed to it: a
    run of fifty failures kills it, and no sequence of shorter runs does.
    One success sets the counter to zero, whatever it was. *)
Theorem rtpReadLoop_error_budget hs log (answers : list ReadAnswer) (st : State) :
  (read_exit (rtpReadLoop hs log answers readVars0 st) = ReadKilled <->
   exists pre post,
     handler_failures (published st) answers = pre ++ repeat true 50 ++ post) /\
  (forall h n v hd,
     n <= rtp_MTUSize ->
     hnd (mp st) = Some (Some hd) ->
     exists st1,
       rtpReadLoop hs log [ReadPacket h n None] v st =
         (Ret (ReadBlocked, mkReadVars (overflow v) "" 0), st1)).
Proof.
  split.
  - rewrite (rtpReadLoop_killed_reaches hs log answers readVars0 st)
      by (cbn; unfold maxErrors; lia).
    apply (run_reaches_max_spec _ 0%nat). lia.
  - intros h n v hd Hn Hh.
    destruct (rtpReadLoop_dispatch hs log h n None [] v st hd Hn Hh)
      as (st1 & _ & _ & _ & ->).
    exists st1. reflexivity.
Qed.

Lemma rtpReadLoop_error_budget_witness :
  exists st1,
    rtpReadLoop handler_name [] [ReadPacket (hdr 1111 50) 160 None]
      (mkReadVars false "mux" 49) port1 =
      (Ret (ReadBlocked, mkReadVars false "" 0), st1).
Proof.
  apply (proj2 (rtpReadLoop_error_budget handler_name [] [] port1)
           (hdr 1111 50) 160 (mkReadVars false "mux" 49) chain1).
  - vm_compute. discriminate.
  - vm_compute. reflexivity.
Defined.

(** Fifty malformed frames in a row end the read loop, with fifty packets
    handed to the handler; forty-nine, a good frame and forty-nine more do
    not. *)
Example error_storm :
  let bad := ReadPacket (hdr 1111 1) 160 (Some (errors_New "bad frame")) in
  let good := ReadPacket (hdr 1111 1) 160 None in
  let r := rtpReadLoop handler_name [] (repeat bad 50) readVars0 port1 in
  read_exit r = ReadKilled /\
  InputPackets (stats (mp (snd r))) = 50 /\
  read_exit (rtpReadLoop handler_name []
               (repeat bad 49 ++ good :: repeat bad 49) readVars0 port1) =
    ReadBlocked.
Proof. vm_compute. repeat split. Qed.

(** ** The watchdog *)

Ltac wsimp :=
  cbn [mp world fst snd andb timeoutStart packetCount closed timeoutReset
       mediaTimeout opts logs set_mediaTimeout set_timeoutReset set_logs] in *.

(** What one iteration does to the timeout channel and the log. *)
Lemma timeoutLoop_iter_cases (c : SelectCase) (v : WatchVars) (st : State) :
  mediaTimeout (mp st) = false ->
  exists x v' st',
    timeoutLoop_iter c v st = (Ret (x, v'), st') /\
    ((x = WatchFired /\ mediaTimeout (mp st') = true /\
      (exists now, c = CaseTick now /\ tick_fires st v now) /\
      exists e, message e = msgTimeout /\
                logs (world st') = logs (world st) ++ [e])
     \/
     (x <> WatchFired /\ mediaTimeout (mp st') = false /\
      (forall now, c = CaseTick now -> ~ tick_fires st v now) /\
      logs (world st') = logs (world st))).
Proof.
  intros Hm. destruct st as [p w]. cbn in Hm.
  unfold tick_fires. cbn [mp world].
  destruct c as [| now | now]; unfold timeoutLoop_iter, timeoutCallback;
    go_unfold; wsimp.
  - destruct (closed p); do 3 eexists; (split; [reflexivity|]); right;
      repeat split; try discriminate; assumption.
  - destruct (timeoutReset p); do 3 eexists; (split; [reflexivity|]); right;
      repeat split; try discriminate; assumption.
  - destruct (decide (packetCount p <> lastPackets v)) as [Hne | Heq].
    { do 3 eexists. split; [reflexivity|]. right.
      repeat split; try discriminate; try assumption.
      intros now' [= <-] (start & _ & Hpc & _). contradiction. }
    apply dec_stable in Heq. wsimp.
    destruct (timeoutStart p) as [start|] eqn:Hs.
    2:{ do 3 eexists. split; [reflexivity|]. right.
        repeat split; try discriminate; try assumption.
        intros now' _ (start' & Hs' & _). discriminate. }
    wsimp.
    destruct (lastPackets v =? startPackets v) eqn:Hls;
      destruct (time_Since now start <? MediaTimeoutInitial (opts p)) eqn:Hi;
      wsimp.
    1:{ do 3 eexists. split; [reflexivity|]. right.
        repeat split; try discriminate; try assumption.
        intros now' [= <-] (start' & [= <-] & _ & _ & [Hd | Hd]).
        - apply Z.eqb_eq in Hls. contradiction.
        - apply Z.ltb_lt in Hi. lia. }
    all: destruct (time_Since now (lastTime v) <? MediaTimeout (opts p)) eqn:Hl.
    all: wsimp; rewrite ?Hm; wsimp.
    all: do 3 eexists; (split; [reflexivity|]).
    all: try (right; repeat split; try discriminate; try assumption;
              intros now' [= <-] (start' & _ & _ & Hd & _);
              apply Z.ltb_lt in Hl; lia).
    all: left; wsimp; repeat split; try reflexivity;
      [ exists now; split; [reflexivity|]; exists start;
        repeat split; try assumption; try reflexivity;
        [ apply Z.ltb_ge in Hl; exact Hl | ]
      | eexists; split; [|reflexivity]; reflexivity ].
    + right. apply Z.ltb_ge in Hi. exact Hi.
    + left. apply Z.eqb_neq in Hls. exact Hls.
    + left. apply Z.eqb_neq in Hls. exact Hls.
Qed.

(** A run of the watchdog writes the timeout entry and closes the channel
    together, once or not at all, and stops for good when it has. *)
Lemma timeoutLoop_from_once (cases : list SelectCase) :
  forall (v : WatchVars) (st : State),
    mediaTimeout (mp st) = false ->
    exists x v' st',
      timeoutLoop_from cases v st = (Ret (x, v'), st') /\
      ((x = WatchFired /\ mediaTimeout (mp st') = true /\
        count_msg msgTimeout (logs (world st')) =
          S (count_msg msgTimeout (logs (world st))))
       \/
       (x <> WatchFired /\ mediaTimeout (mp st') = false /\
        count_msg msgTimeout (logs (world st')) =
          count_msg msgTimeout (logs (world st)))) /\
      (x <> WatchRunning ->
       forall more, timeoutLoop_from (cases ++ more) v st = (Ret (x, v'), st')).
Proof.
  induction cases as [|c rest IH]; intros v st Hm.
  - exists WatchRunning, v, st. split; [reflexivity|]. split.
    + right. repeat split; [discriminate | exact Hm].
    + intros H. contradiction.
  - destruct (timeoutLoop_iter_cases c v st Hm) as (x1 & v1 & st1 & Hit & Hx).
    cbn [timeoutLoop_from app]. unfold bind at 1. rewrite Hit. cbn [fst snd].
    assert (Hcount :
      (x1 = WatchFired /\ mediaTimeout (mp st1) = true /\
       count_msg msgTimeout (logs (world st1)) =
         S (count_msg msgTimeout (logs (world st))))
      \/
      (x1 <> WatchFired /\ mediaTimeout (mp st1) = false /\
       count_msg msgTimeout (logs (world st1)) =
         count_msg msgTimeout (logs (world st)))).
    { destruct Hx as [(-> & Hm1 & _ & e & He & Hl) | (Hne & Hm1 & _ & Hl)].
      - left. repeat split; [exact Hm1|].
        rewrite Hl. apply count_msg_snoc_same, He.
      - right. repeat split; [exact Hne | exact Hm1 |]. rewrite Hl. reflexivity. }
    destruct x1.
    + destruct Hcount as [(? & _) | (_ & Hm1 & Hc1)]; [discriminate|].
      destruct (IH v1 st1 Hm1) as (x & v' & st' & Hrun & Hres & Hstop).
      exists x, v', st'. split; [exact Hrun|]. split.
      * rewrite <- Hc1. exact Hres.
      * intros Hx' more. unfold bind at 1. rewrite Hit. cbn [fst snd].
        apply Hstop, Hx'.
    + exists WatchClosed, v1, st1. split; [reflexivity|].
      split; [exact Hcount|].
      intros _ more. unfold bind at 1. rewrite Hit. reflexivity.
    + exists WatchFired, v1, st1. split; [reflexivity|].
      split; [exact Hcount|].
      intros _ more. unfold bind at 1. rewrite Hit. reflexivity.
Qed.



(** ** Silence between two samples *)

Lemma uint64_add_range (x : Z) : 0 <= uint64_add x 1 < 2 ^ 64.
Proof. unfold uint64_add. apply Z.mod_pos_bound. reflexivity. Qed.

Lemma uint64_add_twice_differs (x : Z) :
  0 <= x < 2 ^ 64 -> uint64_add (uint64_add x 1) 1 <> x.
Proof.
  unfold uint64_add. change (2 ^ 64) with 18446744073709551616.
  intros H. Z.to_euclidean_division_equations. lia.
Qed.

Lemma good_packet_counted hs log seq v (st : State) :
  published st = true ->
  exists v1 st1,
    rtpReadLoop hs log [good_packet seq] v st = (Ret (ReadBlocked, v1), st1) /\
    packetCount (mp st1) = uint64_add (packetCount (mp st)) 1 /\
    mediaTimeout (mp st1) = mediaTimeout (mp st) /\
    published st1 = true.
Proof.
  intros Hp. destruct st as [p w]. unfold published in *. cbn [mp] in *.
  unfold good_packet. read_step.
  replace (160 >? rtp_MTUSize) with false by reflexivity.
  simpl (hnd _). destruct (hnd p) as [[hd|]|] eqn:Hh; try discriminate.
  do 2 eexists. split; [reflexivity|]. cbn. repeat split.
  rewrite Hh. reflexivity.
Qed.

Lemma traffic_keeps_in_step (n : nat) :
  forall (from : Time) (s : System),
    in_step s -> in_step (run1 s (traffic n from)).
Proof.
  induction n as [|n IH]; intros from s H; [exact H|].
  cbn [traffic]. unfold run1, run in *. cbn [fold_left].
  apply IH. clear IH.
  destruct s as [st wx wv rx rv].
  destruct H as (Hw & Hr & Hp & Hm & Hl & Hrange). cbn [sys_state sys_watch
    sys_vars sys_read sys_readVars] in *. subst wx rx.
  cbn [step sys_read sys_state sys_readVars sys_watch sys_vars].
  destruct (good_packet_counted handler_name [] 3 rv st Hp)
    as (v1 & st1 & -> & Hc1 & Hm1 & Hp1).
  cbn [step sys_read sys_state sys_readVars sys_watch sys_vars].
  destruct (good_packet_counted handler_name [] 4 v1 st1 Hp1)
    as (v2 & st2 & -> & Hc2 & Hm2 & Hp2).
  cbn [step sys_read sys_state sys_readVars sys_watch sys_vars].
  unfold timeoutLoop_iter. go_unfold.
  destruct (decide (packetCount (mp st2) <> lastPackets wv)) as [_ | Heq].
  - unfold in_step. cbn. repeat split; try assumption; try congruence.
    + rewrite Hc2. apply uint64_add_range.
    + rewrite Hc2. apply uint64_add_range.
  - exfalso. apply Heq. rewrite Hc2, Hc1, Hl.
    apply uint64_add_twice_differs, Hrange.
Qed.

Lemma run1_app (s : System) (es1 es2 : list Event) :
  run1 s (es1 ++ es2) = run1 (run1 s es1) es2.
Proof. unfold run1, run. apply fold_left_app. Qed.


(** The two timeouts of a port with the default options: a silent peer is
    timed out at the tick at 30 s and not at 15 s; a peer that sent one packet
    at 10 s is timed out at the tick at 30 s. *)
Example timeout_scenarios :
  sys_watch (run1 (start port1) (removelast silent_peer)) = WatchRunning /\
  sys_watch (run1 (start port1) silent_peer) = WatchFired /\
  sys_watch (run1 (start port1) (removelast one_packet)) = WatchRunning /\
  sys_watch (run1 (start port1) one_packet) = WatchFired.
Proof. vm_compute. repeat split. Qed.

(** * Further properties of the port *)

(** ** [Close] *)

(** What [Close] does to an open port. *)
Lemma Close_effect (st : State) :
  closed (mp st) = false ->
  hnd (mp st) <> Some None ->
  exists st1,
    Close st = (Ret tt, st1) /\
    torn_down st1 /\
    sw_target (audioIn (mp st1)) = None /\
    audioInHandler (mp st1) = None /\
    dtmfIn (mp st1) = None /\
    conn_closed (port (mp st1)) = true /\
    closedWriters (world st1) =
      closedWriters (world st) ++ one (sw_target (audioOut (mp st)))
        ++ one (sw_target (audioIn (mp st))) ++ one (dtmfOutAudio (mp st)) /\
    sessions (world st1) = closed_at (sess (mp st)) (sessions (world st)) /\
    closedHandlers (world st1) = closedHandlers (world st) ++ held (hnd (mp st)) /\
    conf (mp st1) = conf (mp st) /\
    sess (mp st1) = sess (mp st) /\
    hnd (mp st1) = hnd (mp st) /\
    dst (port (mp st1)) = dst (port (mp st)).
Proof.
  intros Hc Hh. destruct st as [p w]. cbn [mp world] in *.
  unfold Close, SwitchWriter_Swap, session_Close, udpConn_Close, torn_down,
    closed_at, one, held.
  go_unfold. cbn [mp world]. rewrite Hc.
  repeat (cbn;
          match goal with
          | |- context [match ?x with _ => _ end] =>
              lazymatch x with
              | context [match _ with _ => _ end] => fail
              | _ => destruct x eqn:?
              end
          end);
    try (exfalso; apply Hh; reflexivity);
    eexists; (split; [reflexivity|]); cbn;
    rewrite ?app_nil_r, <- ?app_assoc; repeat split; congruence.
Qed.

(** X1. On an open port [Close] returns (unless the handler pointer holds a
    nil handler), and by then: the fuse is broken; both switches are empty
    and the writers they held are closed, as is the DTMF tone input, each
    once and in that order; the outbound streams, the debug handler and the
    DTMF callback are cleared; the stored session is closed, the socket is
    closed and the published handler chain is closed.  The configuration,
    the session reference, the handler pointer and the destination stay as
    they were. *)
Theorem Close_tears_down (st : State) :
  closed (mp st) = false ->
  hnd (mp st) <> Some None ->
  exists st1,
    Close st = (Ret tt, st1) /\
    torn_down st1 /\
    sw_target (audioIn (mp st1)) = None /\
    audioInHandler (mp st1) = None /\
    dtmfIn (mp st1) = None /\
    conn_closed (port (mp st1)) = true /\
    closedWriters (world st1) =
      closedWriters (world st) ++ one (sw_target (audioOut (mp st)))
        ++ one (sw_target (audioIn (mp st))) ++ one (dtmfOutAudio (mp st)) /\
    sessions (world st1) = closed_at (sess (mp st)) (sessions (world st)) /\
    closedHandlers (world st1) = closedHandlers (world st) ++ held (hnd (mp st)) /\
    conf (mp st1) = conf (mp st) /\
    sess (mp st1) = sess (mp st) /\
    hnd (mp st1) = hnd (mp st) /\
    dst (port (mp st1)) = dst (port (mp st)).
Proof. apply Close_effect. Qed.

Lemma Close_tears_down_witness :
  exists st1, Close port1 = (Ret tt, st1) /\ torn_down st1.
Proof.
  destruct (Close_tears_down port1) as (st1 & H & Ht & _).
  - reflexivity.
  - vm_compute. discriminate.
  - exists st1. split; assumption.
Defined.

(** ** Invariants over all events *)

Lemma snd_then_ret {A : Type} (m : Go A) (st : State) :
  snd ((m;; ret tt) st) = snd (m st).
Proof. unfold bind, ret. destruct (m st) as [[a | why] st1]; reflexivity. Qed.

(** An event either leaves the state alone or runs its call on it. *)
Lemma step_state wr srtp ows ts dw hs (s : System) (e : Event) :
  sys_state (step wr srtp ows ts dw hs s e) = sys_state s \/
  sys_state (step wr srtp ows ts dw hs s e) =
    snd (event_call wr srtp ows ts dw hs s e (sys_state s)).
Proof.
  destruct e; cbn [step exec event_call sys_state];
    rewrite ?snd_then_ret; auto.
  - destruct (sys_read s); auto. right.
    destruct (rtpReadLoop _ _ _ _ _) as [[[x v] | why] st1]; reflexivity.
  - destruct (sys_watch s); auto. right.
    destruct (timeoutLoop_iter _ _ _) as [[[x v] | why] st1]; reflexivity.
Qed.

Lemma run_preserves (I : State -> Prop) (ok : Event -> bool)
  wr srtp ows ts dw hs :
  (forall s e, ok e = true -> preserves I (event_call wr srtp ows ts dw hs s e)) ->
  forall (es : list Event) (s : System),
    forallb ok es = true ->
    I (sys_state s) -> I (sys_state (run wr srtp ows ts dw hs s es)).
Proof.
  intros Hev es. induction es as [|e es IH]; intros s Hok H; [exact H|].
  cbn in Hok. apply andb_true_iff in Hok as [He Hes].
  cbn [run fold_left]. apply IH; [exact Hes|].
  destruct (step_state wr srtp ows ts dw hs s e) as [-> | ->];
    [exact H | apply (Hev s e He), H].
Qed.

Lemma preserves_new_session (I : State -> Prop) (secure : bool) :
  (forall p w, I (mkState p w) ->
     I (mkState p (set_sessions (sessions w ++ [mkSession secure false]) w))) ->
  preserves I (new_session secure).
Proof. intros Hf [p w] H. cbn. apply Hf, H. Qed.

(** Walks through any call of the port; [side] settles the field updates. *)
Ltac preserve_call side :=
  repeat first
    [ apply preserves_bind; [|intros ?]
    | apply preserves_ret
    | apply preserves_panic
    | apply preserves_gets
    | apply preserves_deref
    | apply preserves_new_session; intros ? ? ?; side
    | apply preserves_modify_port; intros ? ? ?; side
    | apply preserves_modify_world; intros ? ? ?; side
    | match goal with
      | |- preserves _ (if ?b then _ else _) => destruct b
      | |- preserves _ (match ?x with _ => _ end) => destruct x
      | |- preserves _ (let _ := _ in _) => cbv zeta
      | IH : forall v, preserves _ (rtpReadLoop _ _ ?rest v)
        |- preserves _ (rtpReadLoop _ _ ?rest _) => apply IH
      | IH : preserves _ (rtpLoop ?rest) |- preserves _ (rtpLoop ?rest) =>
          exact IH
      end ].

Ltac unfold_calls :=
  unfold SetConfig, setupOutput, setupInput, Close, WriteAudioTo, WriteDTMF,
    dtmf_Write, SetDTMFAudio, HandleDTMF, EnableTimeout, DisableOut, EnableOut,
    udpConn_Write, WriteToUDPAddrPort, udpConn_Read, udpConn_SetDst,
    udpConn_Close, SwitchWriter_Swap, close_displaced, writer_Close,
    handler_Close, session_Close, stats_add, mediaReceived_Break,
    count_packet, HandleRTP, timeoutLoop_iter, timeoutCallback, spawn.

(** Settles a call, by induction on the answers where it is a loop. *)
Ltac preserve_event side :=
  match goal with
  | |- preserves _ (event_call _ _ _ _ _ _ _ ?e) =>
      destruct e; cbn [event_call]
  | _ => idtac
  end;
  match goal with
  | |- preserves _ (rtpLoop ?answers;; _) =>
      apply preserves_bind; [|intros ?; apply preserves_ret];
      induction answers as [|[? ? | ?] ? ?]; cbn [rtpLoop];
      unfold_calls; preserve_call side
  | |- preserves _ (rtpReadLoop _ _ ?answers ?v;; _) =>
      apply preserves_bind; [|intros ?; apply preserves_ret];
      generalize v;
      induction answers as [|[? | ? ? ?] ? ?]; intros ?; cbn [rtpReadLoop];
      cbv zeta; cbn [overflow negb];
      unfold_calls; preserve_call side
  | _ => unfold_calls; preserve_call side
  end.

(** X3. The one-shot signals stay fired: once media was received, and once
    the media timeout has fired, no call on the port and no step of its
    goroutines takes either back. *)
Theorem signals_are_one_shot wr srtp ows ts dw hs (s : System)
  (es : list Event) :
  (mediaReceived (mp (sys_state s)) = true ->
   mediaReceived (mp (sys_state (run wr srtp ows ts dw hs s es))) = true) /\
  (mediaTimeout (mp (sys_state s)) = true ->
   mediaTimeout (mp (sys_state (run wr srtp ows ts dw hs s es))) = true).
Proof.
  split; intros H.
  - apply (run_preserves (fun st => mediaReceived (mp st) = true)
             (fun _ => true)); [| apply forallb_forall; reflexivity | exact H].
    intros s' e _.
    preserve_event ltac:(cbn in *; first [assumption | reflexivity
      | match goal with |- context [set_switch ?w] => destruct w end;
        assumption ]).
  - apply (run_preserves (fun st => mediaTimeout (mp st) = true)
             (fun _ => true)); [| apply forallb_forall; reflexivity | exact H].
    intros s' e _.
    preserve_event ltac:(cbn in *; first [assumption | reflexivity
      | match goal with |- context [set_switch ?w] => destruct w end;
        assumption ]).
Qed.

Lemma signals_are_one_shot_witness :
  mediaReceived (mp (sys_state
    (run socket_ok srtp_ok open_ok ts_zero dtmf_ok handler_name
       (run1 (start port1) [EvAccept two_streams])
       [EvSetConfig (Some conf_plain'); EvClose;
        EvEnableTimeout false (sec 1)]))) = true.
Proof.
  apply (proj1 (signals_are_one_shot socket_ok srtp_ok open_ok ts_zero dtmf_ok
                  handler_name (run1 (start port1) [EvAccept two_streams])
                  [EvSetConfig (Some conf_plain'); EvClose;
                   EvEnableTimeout false (sec 1)])).
  vm_compute. reflexivity.
Defined.

(** X4. Only [SetConfig] and [Close] rewire the port: every other call, and
    every step of the accept loop, of a read loop and of the watchdog,
    leaves the stored configuration, the session, the published handler and
    the outbound pipeline (streams, tone input, target of the output
    switch) as they are. *)
Theorem only_SetConfig_and_Close_rewire wr srtp ows ts dw hs (s : System)
  (es : list Event) :
  forallb (fun e => negb (rewires e)) es = true ->
  wiring (mp (sys_state (run wr srtp ows ts dw hs s es))) =
    wiring (mp (sys_state s)).
Proof.
  intros Hes.
  apply (run_preserves (fun st => wiring (mp st) = wiring (mp (sys_state s)))
           (fun e => negb (rewires e)) wr srtp ows ts dw hs);
    [| exact Hes | reflexivity].
  intros s' e He. destruct e; try discriminate He; clear He;
    cbn [event_call];
    preserve_event ltac:(unfold wiring in *; cbn in *; assumption).
Qed.

Lemma only_SetConfig_and_Close_rewire_witness :
  wiring (mp (sys_state
    (run socket_ok srtp_ok open_ok ts_zero dtmf_ok handler_name (start port1)
       [EvWriteAudioTo (Some (ExternalWriter 7)); EvDisableOut;
        EvAccept two_streams; EvPacket (sec 1) (good_packet 1);
        EvSetDTMFAudio true; EvWriteDTMF 0 "1"]))) =
    wiring (mp (sys_state (start port1))).
Proof.
  apply (only_SetConfig_and_Close_rewire socket_ok srtp_ok open_ok ts_zero
           dtmf_ok handler_name (start port1)
           [EvWriteAudioTo (Some (ExternalWriter 7)); EvDisableOut;
            EvAccept two_streams; EvPacket (sec 1) (good_packet 1);
            EvSetDTMFAudio true; EvWriteDTMF 0 "1"]).
  vm_compute. reflexivity.
Defined.

(** After [Close] the outbound pipeline stays torn down. *)
Lemma run_keeps_torn_down wr srtp ows ts dw hs (es : list Event) (s : System) :
  torn_down (sys_state s) ->
  torn_down (sys_state (run wr srtp ows ts dw hs s es)).
Proof.
  apply (run_preserves torn_down (fun _ => true));
    [| apply forallb_forall; reflexivity].
  intros s' e _. destruct e; cbn [event_call].
  1:{ intros st H. rewrite snd_then_ret.
      unfold SetConfig, bind at 1, gets at 1.
      destruct H as (Hc & H). rewrite Hc. cbn. split; assumption. }
  1:{ intros st H. unfold Close, bind at 1, gets at 1.
      destruct H as (Hc & H). rewrite Hc. cbn. split; assumption. }
  all: preserve_event ltac:(unfold torn_down in *; cbn in *; assumption).
Qed.

(** X2. [Close] is terminal for the outbound side.  After [Close] on an
    open port, whatever is called on the port and whatever its goroutines
    do afterwards, the outbound pipeline stays torn down, a further [Close]
    changes nothing, and [WriteDTMF] returns nil without calling
    [dtmf.Write], for every digit string. *)
Theorem Close_is_terminal wr srtp ows ts dw hs (s : System) (es : list Event)
  (ctx : nat) (digits : string) :
  closed (mp (sys_state s)) = false ->
  hnd (mp (sys_state s)) <> Some None ->
  let s' := run wr srtp ows ts dw hs
              (mkSystem (snd (Close (sys_state s))) (sys_watch s) (sys_vars s)
                        (sys_read s) (sys_readVars s)) es in
  fst (Close (sys_state s)) = Ret tt /\
  torn_down (sys_state s') /\
  Close (sys_state s') = (Ret tt, sys_state s') /\
  WriteDTMF ts dw ctx digits (sys_state s') = (Ret None, sys_state s').
Proof.
  intros Hc Hh s'. subst s'.
  destruct (Close_effect (sys_state s) Hc Hh) as (st1 & HC & Ht & _).
  rewrite HC. cbn [fst snd]. split; [reflexivity|].
  match goal with |- torn_down (sys_state ?x) /\ _ => set (s' := x) end.
  assert (H : torn_down (sys_state s')) by (apply run_keeps_torn_down, Ht).
  split; [exact H|]. destruct H as (Hcl & _ & Hr & Ha & _). split.
  - unfold Close, bind at 1, gets at 1. rewrite Hcl. reflexivity.
  - unfold WriteDTMF. destruct (decide _); [reflexivity|].
    go_unfold. rewrite Hr, Ha. destruct (negb _); reflexivity.
Qed.

Lemma Close_is_terminal_witness :
  let s' := run socket_ok srtp_ok open_ok ts_zero dtmf_ok handler_name
              (mkSystem (snd (Close (sys_state (start port1))))
                 (sys_watch (start port1)) (sys_vars (start port1))
                 (sys_read (start port1)) (sys_readVars (start port1)))
              [EvSetConfig (Some conf_plain'); EvSetDTMFAudio true;
               EvWriteAudioTo (Some (ExternalWriter 7))] in
  WriteDTMF ts_zero dtmf_ok 0 "1#" (sys_state s') = (Ret None, sys_state s').
Proof.
  intros s'.
  apply (Close_is_terminal socket_ok srtp_ok open_ok ts_zero dtmf_ok
           handler_name (start port1)
           [EvSetConfig (Some conf_plain'); EvSetDTMFAudio true;
            EvWriteAudioTo (Some (ExternalWriter 7))] 0%nat "1#").
  - vm_compute. reflexivity.
  - vm_compute. discriminate.
Defined.

(** ** [SetConfig], in full *)

(** Runs a call that is stated as an equation [H], case by case. *)
Ltac run_in H :=
  repeat (match type of H with
          | context [udpConn_SetDst ?a ?s] =>
              let Hl := fresh in
              destruct (udpConn_SetDst_effect a s) as [? Hl];
              rewrite Hl in H; clear Hl
          | context [match ?x with _ => _ end] =>
              lazymatch x with
              | context [match _ with _ => _ end] => fail
              | _ => destruct x eqn:?
              end
          end; cbn in H; try discriminate H; try congruence).

(** The port a successful [SetConfig] leaves behind. *)
Lemma SetConfig_success_wiring
  (srtp : CryptoConfig -> option error) (ows : nat -> option error)
  (c : option MediaConf) (st st' : State) :
  SetConfig srtp ows c st = (Ret None, st') ->
  exists cf codec,
    c = Some cf /\ Codec (Audio cf) = Some codec /\
    let new := length (sessions (world st)) in
    let audio := mkStream new (Type_ (Audio cf)) (RTPClockRate codec) in
    let dtmfOn := negb (bool_decide (DTMFType (Audio cf) = 0)) in
    let mixed := dtmfOn && dtmfAudioEnabled (mp st) in
    audioOutRTP (mp st') = Some audio /\
    dtmfOutRTP (mp st') =
      (if dtmfOn then Some (mkStream new (DTMFType (Audio cf)) dtmf_SampleRate)
       else dtmfOutRTP (mp st)) /\
    dtmfOutAudio (mp st') =
      (if mixed then Some (MixerInput (EncodeRTP codec audio) rtp_DefFrameDur 1)
       else dtmfOutAudio (mp st)) /\
    sw_target (audioOut (mp st')) =
      Some (if mixed then MixerInput (EncodeRTP codec audio) rtp_DefFrameDur 0
            else EncodeRTP codec audio) /\
    closedWriters (world st') =
      closedWriters (world st) ++ one (sw_target (audioOut (mp st))) /\
    audioInHandler (mp st') =
      Some (DecodeRTP codec (SwitchRef AudioIn) (Type_ (Audio cf))) /\
    (exists chain arms,
       hnd (mp st') = Some (Some chain) /\
       mux_of chain = Some (Some (RTPStatsHandler "" None), arms) /\
       map fst arms =
         Type_ (Audio cf)
         :: (if dtmfOn then [DTMFType (Audio cf)] else []) /\
       map arm_core (map snd arms) =
         DecodeRTP codec (SwitchRef AudioIn) (Type_ (Audio cf))
         :: (if dtmfOn then [DTMFHandlerFunc] else []) /\
       ((exists inner, chain = HandleJitter inner) <->
        jitterEnabled (mp st) = true)) /\
    dtmfAudioEnabled (mp st') = dtmfAudioEnabled (mp st) /\
    closed (mp st') = false /\
    dst (port (mp st')) =
      (if AddrPort_IsValid (Remote cf) then Some (Remote cf)
       else dst (port (mp st))).
Proof.
  destruct st as [p w].
  unfold SetConfig, setupOutput, setupInput, new_session, SwitchWriter_Swap.
  go_unfold. cbn [mp world].
  intros H. run_in H.
  all: injection H as <-; do 2 eexists; (split; [reflexivity|]);
    (split; [eassumption|]); cbn.
  all: repeat match goal with
              | Hs : Some _ = Some _ |- _ => injection Hs as Hs; subst
              end.
  all: try match goal with
           | e : DTMFType _ = 0 |- _ => rewrite (bool_decide_eq_true_2 _ e)
           end;
       try match goal with
           | n : DTMFType _ <> 0 |- _ => rewrite (bool_decide_eq_false_2 _ n)
           end;
       cbn [negb andb].
  all: repeat match goal with
              | Hb : ?x = true |- context [?x] => rewrite Hb
              | Hb : ?x = false |- context [?x] => rewrite Hb
              end.
  all: cbn [negb andb]; rewrite ?app_nil_r.
  all: repeat (split; [reflexivity|]).
  all: (split; [|repeat split; reflexivity]).
  all: do 2 eexists; (split; [reflexivity|]); cbn;
       repeat (split; [reflexivity|]).
  all: try split; intros;
    first [ reflexivity | discriminate | eexists; reflexivity
          | match goal with
            | Hi : exists _, _ |- _ => destruct Hi as [? Hi]; discriminate Hi
            end ].
Qed.

(** X5. A successful [SetConfig] builds the outbound side on the session it
    created: the audio stream has the negotiated payload type and the clock
    rate of the codec.  A DTMF stream is made when the DTMF payload type is
    not zero; when it is zero the DTMF stream of an earlier configuration,
    if any, stays in place.  The tone input of a mixer is made only when,
    besides, DTMF audio was enabled before the call.  The output switch gets
    the new encoder (or the mixer input) and the writer it held is closed,
    once. *)
Theorem SetConfig_wires_outbound
  (srtp : CryptoConfig -> option error) (ows : nat -> option error)
  (c : option MediaConf) (st st' : State) :
  SetConfig srtp ows c st = (Ret None, st') ->
  exists cf codec,
    c = Some cf /\ Codec (Audio cf) = Some codec /\
    let new := length (sessions (world st)) in
    let audio := mkStream new (Type_ (Audio cf)) (RTPClockRate codec) in
    let dtmfOn := negb (bool_decide (DTMFType (Audio cf) = 0)) in
    let mixed := dtmfOn && dtmfAudioEnabled (mp st) in
    sess (mp st') = Some new /\
    audioOutRTP (mp st') = Some audio /\
    dtmfOutRTP (mp st') =
      (if dtmfOn then Some (mkStream new (DTMFType (Audio cf)) dtmf_SampleRate)
       else dtmfOutRTP (mp st)) /\
    dtmfOutAudio (mp st') =
      (if mixed then Some (MixerInput (EncodeRTP codec audio) rtp_DefFrameDur 1)
       else dtmfOutAudio (mp st)) /\
    sw_target (audioOut (mp st')) =
      Some (if mixed then MixerInput (EncodeRTP codec audio) rtp_DefFrameDur 0
            else EncodeRTP codec audio) /\
    closedWriters (world st') =
      closedWriters (world st) ++ one (sw_target (audioOut (mp st))).
Proof.
  intros H.
  destruct (SetConfig_success_wiring _ _ _ _ _ H)
    as (cf & codec & Hc & Hcodec & Ha & Hd & Hda & Ho & Hw & _).
  destruct (SetConfig_success _ _ _ _ _ H) as (Hs & _).
  exists cf, codec. repeat split; assumption.
Qed.

Lemma SetConfig_wires_outbound_witness :
  dtmfOutRTP (mp port1) = Some (mkStream 0 101 8000) /\
  sw_target (audioOut (mp port1)) = Some (EncodeRTP pcmu (mkStream 0 0 8000)).
Proof.
  destruct (SetConfig_wires_outbound srtp_ok open_ok (Some conf_plain)
              port0 port1)
    as (cf & codec & Hc & Hcodec & _ & _ & Hd & _ & Ho & _).
  - vm_compute. reflexivity.
  - injection Hc as <-. injection Hcodec as <-. split; assumption.
Defined.

(** X6. The handler a successful [SetConfig] publishes is a mux with a
    statistics-only default arm and arms for the declared payload types and
    no others: the audio type, decoded into the input switch, and the DTMF
    type when it is not zero.  It is wrapped in a jitter buffer exactly when
    the port was built with one enabled. *)
Theorem SetConfig_publishes_handler
  (srtp : CryptoConfig -> option error) (ows : nat -> option error)
  (c : option MediaConf) (st st' : State) :
  SetConfig srtp ows c st = (Ret None, st') ->
  exists cf codec chain arms,
    c = Some cf /\ Codec (Audio cf) = Some codec /\
    hnd (mp st') = Some (Some chain) /\
    mux_of chain = Some (Some (RTPStatsHandler "" None), arms) /\
    map fst arms =
      Type_ (Audio cf)
      :: (if bool_decide (DTMFType (Audio cf) = 0) then []
          else [DTMFType (Audio cf)]) /\
    map arm_core (map snd arms) =
      DecodeRTP codec (SwitchRef AudioIn) (Type_ (Audio cf))
      :: (if bool_decide (DTMFType (Audio cf) = 0) then []
          else [DTMFHandlerFunc]) /\
    ((exists inner, chain = HandleJitter inner) <->
     jitterEnabled (mp st) = true).
Proof.
  intros H.
  destruct (SetConfig_success_wiring _ _ _ _ _ H)
    as (cf & codec & Hc & Hcodec & _ & _ & _ & _ & _ & _ &
        (chain & arms & Hh & Hm & Hk & Ha & Hj) & _).
  exists cf, codec, chain, arms.
  destruct (bool_decide (DTMFType (Audio cf) = 0)); cbn [negb] in *;
    repeat split; try assumption; apply Hj.
Qed.

Lemma SetConfig_publishes_handler_witness :
  exists chain arms,
    hnd (mp port1) = Some (Some chain) /\
    mux_of chain = Some (Some (RTPStatsHandler "" None), arms) /\
    map fst arms = [0; 101].
Proof.
  destruct (SetConfig_publishes_handler srtp_ok open_ok (Some conf_plain)
              port0 port1)
    as (cf & codec & chain & arms & Hc & _ & Hh & Hm & Hk & _).
  - vm_compute. reflexivity.
  - injection Hc as <-. exists chain, arms. repeat split; assumption.
Defined.

(** X7. When [OpenWriteStream] fails on the session just created,
    [SetConfig] returns that error with the port half configured: the new
    configuration and session are stored and an accept loop runs on the
    session, while the outbound streams, the output switch and the
    published handler are those of before the call. *)
Theorem SetConfig_open_failure
  (srtp : CryptoConfig -> option error) (ows : nat -> option error)
  (cf : MediaConf) (codec : AudioCodec) (err : error) (st : State) :
  closed (mp st) = false ->
  Codec (Audio cf) = Some codec ->
  (forall k, Crypto cf = Some k -> srtp k = None) ->
  ows (length (sessions (world st))) = Some err ->
  exists st',
    let new := length (sessions (world st)) in
    SetConfig srtp ows (Some cf) st = (Ret (Some err), st') /\
    conf (mp st') = Some cf /\
    sess (mp st') = Some new /\
    (exists secure,
       sessions (world st') = sessions (world st) ++ [mkSession secure false]) /\
    goroutines (world st') = goroutines (world st) ++ [GoRtpLoop new] /\
    hnd (mp st') = hnd (mp st) /\
    audioInHandler (mp st') = audioInHandler (mp st) /\
    audioOutRTP (mp st') = audioOutRTP (mp st) /\
    dtmfOutRTP (mp st') = dtmfOutRTP (mp st) /\
    dtmfOutAudio (mp st') = dtmfOutAudio (mp st) /\
    audioOut (mp st') = audioOut (mp st) /\
    closedWriters (world st') = closedWriters (world st).
Proof.
  intros Hcl Hcodec Hk Hows. destruct st as [p w]. cbn [mp world] in *.
  destruct (SetConfig srtp ows (Some cf) {| mp := p; world := w |})
    as [r st'] eqn:H.
  exists st'. revert H.
  unfold SetConfig, setupOutput, setupInput, new_session, SwitchWriter_Swap.
  go_unfold. cbn [mp world]. intros H.
  destruct (Crypto cf) as [k|] eqn:Hcr;
    [pose proof (Hk k eq_refl) as Hsk|]; clear Hk.
  all: run_in H.
  all: injection H as <- <-; cbn; repeat split; eauto; congruence.
Qed.

Lemma SetConfig_open_failure_witness :
  exists st',
    SetConfig srtp_ok (fun _ => Some (errors_New "no stream"))
      (Some conf_plain) port0 = (Ret (Some (errors_New "no stream")), st') /\
    conf (mp st') = Some conf_plain /\ hnd (mp st') = None.
Proof.
  destruct (SetConfig_open_failure srtp_ok
              (fun _ => Some (errors_New "no stream")) conf_plain pcmu
              (errors_New "no stream") port0)
    as (st' & H & Hc & _ & _ & _ & Hh & _).
  - reflexivity.
  - reflexivity.
  - intros k Hk. reflexivity.
  - reflexivity.
  - exists st'. repeat split; assumption.
Defined.

(** ** DTMF after [SetConfig] *)

Lemma length_zero_empty (s : string) : String.length s = 0%nat -> s = "".
Proof. destruct s; [reflexivity | discriminate]. Qed.

(** X8. After a successful [SetConfig] that negotiated DTMF (payload type
    not zero), [WriteDTMF] with a non-empty digit string makes one call of
    [dtmf.Write] and returns its result: on the DTMF stream of the new
    session, with the current timestamp of the new audio stream, and with
    the tone input of the mixer only if DTMF audio was enabled when
    [SetConfig] ran. *)
Theorem SetConfig_then_WriteDTMF
  (srtp : CryptoConfig -> option error) (ows : nat -> option error)
  (ts : Stream -> Z) (dw : DTMFWrite -> option error)
  (cf : MediaConf) (st st' : State) (ctx : nat) (digits : string) :
  SetConfig srtp ows (Some cf) st = (Ret None, st') ->
  DTMFType (Audio cf) <> 0 ->
  digits <> "" ->
  exists codec,
    Codec (Audio cf) = Some codec /\
    let new := length (sessions (world st)) in
    let audio := mkStream new (Type_ (Audio cf)) (RTPClockRate codec) in
    let call :=
      mkDTMFWrite ctx
        (if dtmfAudioEnabled (mp st)
         then Some (MixerInput (EncodeRTP codec audio) rtp_DefFrameDur 1)
         else None)
        (Some (mkStream new (DTMFType (Audio cf)) dtmf_SampleRate))
        (ts audio) digits in
    WriteDTMF ts dw ctx digits st' =
      (Ret (dw call),
       {| mp := mp st';
          world := set_dtmfWrites (dtmfWrites (world st') ++ [call]) (world st') |}).
Proof.
  intros H Hd Hdig.
  destruct (SetConfig_success_wiring _ _ _ _ _ H)
    as (cf' & codec & [= <-] & Hcodec & Ha & Hr & Hda & _ & _ & _ & _ & He & _).
  exists codec. split; [exact Hcodec|]. cbv zeta in *.
  rewrite (bool_decide_eq_false_2 _ Hd) in Hr, Hda. cbn [negb andb] in Hr, Hda.
  unfold WriteDTMF, dtmf_Write.
  destruct (decide (String.length digits = 0%nat)) as [Hz | _];
    [exfalso; apply Hdig, length_zero_empty, Hz|].
  go_unfold. rewrite Hr, Hda, Ha, He.
  destruct (dtmfAudioEnabled (mp st)); reflexivity.
Qed.

Lemma SetConfig_then_WriteDTMF_witness :
  dtmfWrites (world (snd (WriteDTMF ts_zero dtmf_ok 0 "5" port1))) =
    [mkDTMFWrite 0 None (Some (mkStream 0 101 8000)) 0 "5"].
Proof.
  destruct (SetConfig_then_WriteDTMF srtp_ok open_ok ts_zero dtmf_ok conf_plain
              port0 port1 0%nat "5") as (codec & Hcodec & H).
  - vm_compute. reflexivity.
  - discriminate.
  - discriminate.
  - rewrite H. injection Hcodec as <-. reflexivity.
Defined.

(** X9. Enabling DTMF audio after [SetConfig] does not add tones: on a port
    that had no tone input and had DTMF audio disabled when [SetConfig]
    ran, [SetDTMFAudio (true)] followed by [WriteDTMF] still calls
    [dtmf.Write] without an audio sink; the mixer is built by the next
    [SetConfig] only. *)
Theorem SetDTMFAudio_waits_for_SetConfig
  (srtp : CryptoConfig -> option error) (ows : nat -> option error)
  (ts : Stream -> Z) (dw : DTMFWrite -> option error)
  (cf : MediaConf) (st st' : State) (ctx : nat) (digits : string) :
  dtmfAudioEnabled (mp st) = false ->
  dtmfOutAudio (mp st) = None ->
  SetConfig srtp ows (Some cf) st = (Ret None, st') ->
  DTMFType (Audio cf) <> 0 ->
  digits <> "" ->
  let st2 := snd (WriteDTMF ts dw ctx digits (snd (SetDTMFAudio true st'))) in
  exists call,
    dtmfWrites (world st2) = dtmfWrites (world st') ++ [call] /\
    dw_audio call = None /\
    dw_rtp call =
      Some (mkStream (length (sessions (world st))) (DTMFType (Audio cf))
              dtmf_SampleRate) /\
    dw_digits call = digits.
Proof.
  intros Hen Hnone H Hd Hdig st2. subst st2.
  destruct (SetConfig_success_wiring _ _ _ _ _ H)
    as (cf' & codec & [= <-] & Hcodec & Ha & Hr & Hda & _).
  cbv zeta in *. rewrite (bool_decide_eq_false_2 _ Hd), Hen in *.
  cbn [negb andb] in Hr, Hda. rewrite Hnone in Hda.
  unfold WriteDTMF, dtmf_Write, SetDTMFAudio.
  destruct (decide (String.length digits = 0%nat)) as [Hz | _];
    [exfalso; apply Hdig, length_zero_empty, Hz|].
  go_unfold. cbn. rewrite Hr, Hda, Ha. cbn.
  eexists. repeat split.
Qed.

Lemma SetDTMFAudio_waits_for_SetConfig_witness :
  exists call,
    dtmfWrites (world (snd (WriteDTMF ts_zero dtmf_ok 0 "5"
                              (snd (SetDTMFAudio true port1))))) =
      dtmfWrites (world port1) ++ [call] /\
    dw_audio call = None.
Proof.
  destruct (SetDTMFAudio_waits_for_SetConfig srtp_ok open_ok ts_zero dtmf_ok
              conf_plain port0 port1 0%nat "5")
    as (call & H & Ha & _).
  - reflexivity.
  - reflexivity.
  - vm_compute. reflexivity.
  - discriminate.
  - discriminate.
  - exists call. split; assumption.
Defined.

(** ** The input switch *)

(** One call of [WriteAudioTo] on a configured port. *)
Lemma WriteAudioTo_effect (w1 : option PCM16Writer) (cf : MediaConf)
  (st : State) :
  conf (mp st) = Some cf ->
  exists st1,
    WriteAudioTo w1 st = (Ret tt, st1) /\
    sw_target (audioIn (mp st1)) =
      match Processor cf with
      | Some processor => Some (ProcessedWriter processor w1)
      | None => w1
      end /\
    closedWriters (world st1) =
      closedWriters (world st) ++ one (sw_target (audioIn (mp st))) /\
    wiring (mp st1) = wiring (mp st).
Proof.
  intros Hc. destruct st as [p w]. cbn [mp world] in *.
  unfold WriteAudioTo, SwitchWriter_Swap. go_unfold. cbn [mp world].
  rewrite Hc. cbn.
  destruct (sw_target (audioIn p)) as [prior|]; cbn;
    eexists; (split; [reflexivity|]); cbn; rewrite ?app_nil_r;
    repeat split.
Qed.

(** X10. [WriteAudioTo] on a configured port installs the writer, wrapped by
    the processor of the configuration if it has one, and closes the writer
    it displaces: over two calls the first installed writer is closed
    exactly once, by the second call, and nothing else is closed. *)
Theorem WriteAudioTo_closes_displaced (w1 w2 : option PCM16Writer)
  (cf : MediaConf) (st : State) :
  conf (mp st) = Some cf ->
  let wrap := fun w => match Processor cf with
                       | Some processor => Some (ProcessedWriter processor w)
                       | None => w
                       end in
  exists st1 st2,
    WriteAudioTo w1 st = (Ret tt, st1) /\
    WriteAudioTo w2 st1 = (Ret tt, st2) /\
    sw_target (audioIn (mp st1)) = wrap w1 /\
    closedWriters (world st1) =
      closedWriters (world st) ++ one (sw_target (audioIn (mp st))) /\
    sw_target (audioIn (mp st2)) = wrap w2 /\
    closedWriters (world st2) = closedWriters (world st1) ++ one (wrap w1) /\
    wiring (mp st2) = wiring (mp st).
Proof.
  intros Hc wrap.
  destruct (WriteAudioTo_effect w1 cf st Hc) as (st1 & H1 & Ht1 & Hc1 & Hw1).
  assert (Hc' : conf (mp st1) = Some cf).
  { unfold wiring in Hw1. injection Hw1 as Hw1 _. congruence. }
  destruct (WriteAudioTo_effect w2 cf st1 Hc') as (st2 & H2 & Ht2 & Hc2 & Hw2).
  exists st1, st2. repeat split; try assumption.
  - rewrite Hc2, Ht1. reflexivity.
  - congruence.
Qed.

Lemma WriteAudioTo_closes_displaced_witness :
  exists st1 st2,
    WriteAudioTo (Some (ExternalWriter 1)) port1 = (Ret tt, st1) /\
    WriteAudioTo (Some (ExternalWriter 2)) st1 = (Ret tt, st2) /\
    closedWriters (world st2) = [ExternalWriter 1].
Proof.
  destruct (WriteAudioTo_closes_displaced (Some (ExternalWriter 1))
              (Some (ExternalWriter 2)) conf_plain port1)
    as (st1 & st2 & H1 & H2 & _ & Hc1 & _ & Hc2 & _).
  - vm_compute. reflexivity.
  - exists st1, st2. repeat split; try assumption.
    rewrite Hc2, Hc1. reflexivity.
Defined.

(** ** The UDP channel, both directions *)

(** X11. A read stores the peer it was answered with as the source, even
    when the read failed, and [GetSrc] then reports that address, as valid
    exactly when the address is; the destination is not touched by reads,
    so a peer sending from another address does not redirect outbound
    packets. *)
Theorem udpConn_Read_learns_source (n : Z) (addr : AddrPort)
  (err : option error) (st : State) :
  let r := udpConn_Read n addr err st in
  fst r = Ret (n, err) /\
  udpConn_GetSrc (port (mp (snd r))) = (addr, AddrPort_IsValid addr) /\
  dst (port (mp (snd r))) = dst (port (mp st)) /\
  (forall wr b,
     sent (world (snd (udpConn_Write wr b (snd r)))) =
       sent (world (snd (udpConn_Write wr b st)))).
Proof.
  destruct st as [p w]. unfold udpConn_Read, udpConn_GetSrc, udpConn_Write,
    WriteToUDPAddrPort.
  go_unfold. cbn [mp world].
  destruct (src (port p)) as [pv|]; cbn;
    [destruct (AddrPort_IsValid pv); cbn; [destruct (decide (pv = addr)); cbn|]|];
    repeat split; intros; destruct (dst (port p)); reflexivity.
Qed.

Lemma SetDst_each_dst (addrs : list AddrPort) :
  forall st : State,
    exists l,
      SetDst_each addrs st =
        (Ret tt,
         {| mp := set_port (set_dst (last_valid (dst (port (mp st))) addrs)
                              (port (mp st))) (mp st);
            world := set_logs (logs (world st) ++ l) (world st) |}).
Proof.
  induction addrs as [|a rest IH]; intros st.
  - exists []. cbn [SetDst_each last_valid]. unfold ret.
    rewrite set_dst_same, set_logs_nil. destruct st; reflexivity.
  - cbn [SetDst_each last_valid]. unfold bind.
    destruct (udpConn_SetDst_effect a st) as [l ->].
    match goal with |- context [SetDst_each rest ?s] =>
      destruct (IH s) as [l' ->] end.
    exists (l ++ l'). destruct st as [p w]. cbn.
    rewrite app_assoc. destruct p as [? ? [? ? ? ?]]; reflexivity.
Qed.

(** X12. The destination is the last valid address passed to [SetDst]:
    invalid addresses are ignored wherever they come in the sequence, and
    with no valid one the destination is what it was.  A write after the
    sequence goes to that address, or nowhere if there is still none. *)
Theorem SetDst_last_valid_wins (wr : bytes -> AddrPort -> Z * option error)
  (addrs : list AddrPort) (b : bytes) (st : State) :
  let st' := snd (SetDst_each addrs st) in
  dst (port (mp st')) = last_valid (dst (port (mp st))) addrs /\
  src (port (mp st')) = src (port (mp st)) /\
  sent (world (snd (udpConn_Write wr b st'))) =
    sent (world st)
    ++ match last_valid (dst (port (mp st))) addrs with
       | Some a => [mkDatagram b a]
       | None => []
       end.
Proof.
  destruct (SetDst_each_dst addrs st) as [l H]. cbv zeta. rewrite H.
  destruct st as [p w]. cbn [snd mp world].
  unfold udpConn_Write, WriteToUDPAddrPort. go_unfold. cbn.
  destruct (last_valid (dst (port p)) addrs); cbn; rewrite ?app_nil_r;
    repeat split.
Qed.

(** ** Construction *)


(** ** The accept loop, summed up *)

Lemma congr64_refl (x : Z) : congr64 x (x + 0).
Proof. unfold congr64. replace (x - (x + 0)) with 0 by lia. reflexivity. Qed.

Lemma congr64_incr (x : Z) : congr64 (uint64_add x 1) (x + 1).
Proof.
  unfold congr64, uint64_add. change (2 ^ 64) with 18446744073709551616.
  Z.to_euclidean_division_equations. lia.
Qed.

Lemma congr64_trans (x y z a b : Z) :
  congr64 y (x + a) -> congr64 z (y + b) -> congr64 z (x + (a + b)).
Proof.
  unfold congr64. change (2 ^ 64) with 18446744073709551616.
  intros H1 H2. Z.to_euclidean_division_equations. lia.
Qed.

Lemma congr64_after_incr (x z : Z) (n : nat) :
  congr64 z (uint64_add x 1 + Z.of_nat n) -> congr64 z (x + Z.of_nat (S n)).
Proof.
  intros H. replace (Z.of_nat (S n)) with (1 + Z.of_nat n) by lia.
  exact (congr64_trans x (uint64_add x 1) z 1 (Z.of_nat n) (congr64_incr x) H).
Qed.

(** X14. The accept loop, for every sequence of answers: it returns exactly
    when [AcceptStream] fails and is blocked in it otherwise; media-received
    is fired as soon as one stream was accepted and is left alone if none
    was; the stream counter goes up by the number of streams accepted; and
    the failure is logged once, unless it tells of a closed session, in
    which case the loop leaves silently. *)
Theorem rtpLoop_summary (answers : list AcceptAnswer) (st : State) :
  let r := rtpLoop answers st in
  fst r = Ret (match first_failure answers with
               | Some _ => Returned
               | None => Blocked
               end) /\
  mediaReceived (mp (snd r)) =
    match accepted answers with
    | [] => mediaReceived (mp st)
    | _ => true
    end /\
  congr64 (Streams (stats (mp (snd r))))
          (Streams (stats (mp st)) + Z.of_nat (length (accepted answers))) /\
  count_msg "cannot accept RTP stream" (logs (world (snd r))) =
    (count_msg "cannot accept RTP stream" (logs (world st))
     + match first_failure answers with
       | Some err => if closed_like err then 0 else 1
       | None => 0
       end)%nat.
Proof.
  revert st. induction answers as [|[r ssrc | err] rest IH]; intros st.
  - cbn. repeat split; [apply congr64_refl | lia].
  - cbn [rtpLoop accepted first_failure length].
    unfold stats_add, mediaReceived_Break. go_unfold.
    destruct st as [p w]. cbn [mp world].
    match goal with |- context [rtpLoop rest ?s] => specialize (IH s) end.
    cbv zeta in IH. destruct IH as (IH1 & IH2 & IH3 & IH4).
    cbn [mp world mediaReceived set_mediaReceived stats set_stats Streams
         set_Streams logs set_logs set_goroutines] in *.
    repeat split.
    + exact IH1.
    + rewrite IH2. destruct (accepted rest); reflexivity.
    + apply congr64_after_incr, IH3.
    + rewrite IH4, count_msg_snoc_other by discriminate. reflexivity.
  - cbn [rtpLoop accepted first_failure length]. go_unfold.
    unfold closed_like. rewrite <- negb_orb.
    destruct (_ || _); cbn [negb snd fst mp world logs set_logs];
      rewrite ?count_msg_snoc_same by reflexivity;
      repeat split; try apply congr64_refl; lia.
Qed.

(** ** The read loop, summed up *)

Lemma accounted_none (st st' : State) :
  handled (world st') = handled (world st) ->
  stats (mp st') = stats (mp st) ->
  packetCount (mp st') = packetCount (mp st) ->
  hnd (mp st') = hnd (mp st) ->
  accounted st st' [] 0.
Proof.
  intros Hh Hs Hp Hn. unfold accounted. rewrite Hh, Hs, Hp, Hn, app_nil_r.
  cbn. repeat split; try apply congr64_refl. constructor.
Qed.

Lemma accounted_ignored (st st1 st' : State) calls (ignored : nat) :
  handled (world st1) = handled (world st) ->
  hnd (mp st1) = hnd (mp st) ->
  InputPackets (stats (mp st1)) = InputPackets (stats (mp st)) ->
  IgnoredPackets (stats (mp st1)) = uint64_add (IgnoredPackets (stats (mp st))) 1 ->
  Packets (stats (mp st1)) = uint64_add (Packets (stats (mp st))) 1 ->
  packetCount (mp st1) = uint64_add (packetCount (mp st)) 1 ->
  accounted st1 st' calls ignored ->
  accounted st st' calls (S ignored).
Proof.
  unfold accounted. intros Hh Hn Hi Hg Hp Hc (A1 & A2 & A3 & A4 & A5 & A6 & A7).
  rewrite Hh, Hn, Hi, Hg, Hp, Hc in *.
  repeat split; try assumption.
  - apply congr64_after_incr, A4.
  - apply (congr64_after_incr _ _ (ignored + length calls)), A5.
  - apply (congr64_after_incr _ _ (ignored + length calls)), A6.
Qed.

Lemma accounted_dispatched (st st1 st' : State) hd h n calls (ignored : nat) :
  n <= rtp_MTUSize ->
  hnd (mp st) = Some (Some hd) ->
  handled (world st1) = handled (world st) ++ [mkHandleCall hd h n] ->
  hnd (mp st1) = hnd (mp st) ->
  InputPackets (stats (mp st1)) = uint64_add (InputPackets (stats (mp st))) 1 ->
  IgnoredPackets (stats (mp st1)) = IgnoredPackets (stats (mp st)) ->
  Packets (stats (mp st1)) = uint64_add (Packets (stats (mp st))) 1 ->
  packetCount (mp st1) = uint64_add (packetCount (mp st)) 1 ->
  accounted st1 st' calls ignored ->
  accounted st st' (mkHandleCall hd h n :: calls) ignored.
Proof.
  unfold accounted.
  intros Hle Hhd Hh Hn Hi Hg Hp Hc (A1 & A2 & A3 & A4 & A5 & A6 & A7).
  rewrite Hh, Hn, Hi, Hg, Hp, Hc in *. cbn [length].
  replace (ignored + S (length calls))%nat with (S (ignored + length calls))
    by lia.
  repeat split; try assumption.
  - rewrite A1, <- app_assoc. reflexivity.
  - constructor; [cbn; split; [exact Hle | exact Hhd] | exact A2].
  - apply congr64_after_incr, A3.
  - apply (congr64_after_incr _ _ (ignored + length calls)), A5.
  - apply (congr64_after_incr _ _ (ignored + length calls)), A6.
Qed.


(** X16. While no handler is published (the pointer is nil or holds a nil
    handler) a read loop drops everything: each packet up to the first read
    failure is counted as ignored, none is handed on or counted as input,
    the error counter stays as it is and the loop is never killed. *)
Theorem rtpReadLoop_without_handler hs log (answers : list ReadAnswer) :
  forall (v : ReadVars) (st : State),
    published st = false ->
    let r := rtpReadLoop hs log answers v st in
    handled (world (snd r)) = handled (world st) /\
    InputPackets (stats (mp (snd r))) = InputPackets (stats (mp st)) /\
    congr64 (IgnoredPackets (stats (mp (snd r))))
            (IgnoredPackets (stats (mp st))
             + Z.of_nat (packets_before_failure answers)) /\
    read_exit r <> ReadKilled /\
    exists x v', fst r = Ret (x, v') /\ errorCnt v' = errorCnt v.
Proof.
  induction answers as [|[err | h n handle] rest IH]; intros v st Hp.
  - cbn. repeat split; [apply congr64_refl | discriminate | eauto].
  - cbn [rtpReadLoop packets_before_failure].
    destruct (decide (err = io_EOF)); cbn;
      repeat split; try apply congr64_refl; try discriminate; eauto.
  - destruct st as [p w]. unfold published in Hp. cbn [mp] in Hp.
    read_step. cbn [packets_before_failure].
    destruct (n >? rtp_MTUSize).
    + cbv zeta. cbn [overflow negb]. go_unfold. cbn [mp world].
      match goal with |- context [rtpReadLoop _ _ _ ?v1 ?s1] =>
        destruct (IH v1 s1) as (H1 & H2 & H3 & H4 & H5) end.
      { unfold published. cbn. exact Hp. }
      cbn in H1, H2, H3, H5. repeat split; try assumption.
      apply congr64_after_incr, H3.
    + simpl (hnd _). destruct (hnd p) as [[hd|]|] eqn:Hh; [discriminate|..].
      all: match goal with |- context [rtpReadLoop _ _ _ ?v1 ?s1] =>
             destruct (IH v1 s1) as (H1 & H2 & H3 & H4 & H5) end;
           [unfold published; cbn; rewrite Hh; reflexivity|];
           cbn in H1, H2, H3, H5; repeat split; try assumption;
           apply congr64_after_incr, H3.
Qed.

Lemma rtpReadLoop_without_handler_witness :
  handled (world (snd (rtpReadLoop handler_name [] [good_packet 1; good_packet 2]
                         readVars0 port0))) = [].
Proof.
  apply (rtpReadLoop_without_handler handler_name []
           [good_packet 1; good_packet 2] readVars0 port0).
  reflexivity.
Defined.

(** ** The watchdog, further *)

(** An iteration of the watchdog reads the port; of the port it changes the
    reset token and the timeout channel only. *)
Lemma timeoutLoop_iter_frame (c : SelectCase) (v : WatchVars) (st : State) :
  let st' := snd (timeoutLoop_iter c v st) in
  packetCount (mp st') = packetCount (mp st) /\
  timeoutStart (mp st') = timeoutStart (mp st) /\
  opts (mp st') = opts (mp st).
Proof.
  cbv zeta.
  assert (H : preserves
            (fun s => (packetCount (mp s), timeoutStart (mp s), opts (mp s)) =
                      (packetCount (mp st), timeoutStart (mp st), opts (mp st)))
            (timeoutLoop_iter c v)).
  { unfold timeoutLoop_iter, timeoutCallback.
    preserve_call ltac:(cbn in *; assumption). }
  specialize (H st eq_refl). cbn beta in H. injection H as H1 H2 H3.
  repeat split; assumption.
Qed.

(** A watchdog that was reset at the current value of the counter stays so
    as long as the counter does not move. *)
Lemma timeoutLoop_iter_start (c : SelectCase) (v v' : WatchVars)
  (st st' : State) (x : WatchExit) :
  timeoutLoop_iter c v st = (Ret (x, v'), st') ->
  startPackets v = packetCount (mp st) ->
  startPackets v' = packetCount (mp st).
Proof.
  destruct st as [p w]. intros H Hs. cbn [mp] in *. revert H.
  unfold timeoutLoop_iter, timeoutCallback. go_unfold. cbn [mp world].
  destruct c as [| now | now]; intros H;
    repeat (match type of H with
            | context [match ?y with _ => _ end] =>
                lazymatch y with
                | context [match _ with _ => _ end] => fail
                | _ => destruct y eqn:?
                end
            end; cbn in H; try discriminate H);
    injection H as <- <- <-; cbn; congruence.
Qed.

(** X17. A disabled timeout does not fire: from a port whose timeout is
    disabled and has not fired, whatever is called on the port and whatever
    its goroutines do, the timeout channel stays open until
    [EnableTimeout (true)] is called. *)
Theorem disabled_timeout_never_fires wr srtp ows ts dw hs (s : System)
  (es : list Event) :
  timeoutStart (mp (sys_state s)) = None ->
  mediaTimeout (mp (sys_state s)) = false ->
  forallb (fun e => negb (enables e)) es = true ->
  let s' := run wr srtp ows ts dw hs s es in
  mediaTimeout (mp (sys_state s')) = false /\
  timeoutStart (mp (sys_state s')) = None.
Proof.
  intros Hs Hm Hes s'. subst s'.
  enough (H : timeoutStart (mp (sys_state (run wr srtp ows ts dw hs s es))) = None
              /\ mediaTimeout (mp (sys_state (run wr srtp ows ts dw hs s es))) = false)
    by (destruct H; split; assumption).
  apply (run_preserves
           (fun st => timeoutStart (mp st) = None /\ mediaTimeout (mp st) = false)
           (fun e => negb (enables e)) wr srtp ows ts dw hs);
    [| exact Hes | split; assumption].
  intros s0 e He. destruct e; try discriminate He; clear Hes.
  14:{ intros st [H1 H2]. cbn [event_call]. rewrite snd_then_ret.
       destruct (timeoutLoop_iter_frame c (sys_vars s0) st) as (_ & Hf & _).
       destruct (timeoutLoop_iter_cases c (sys_vars s0) st H2)
         as (x & v' & st' & Hit & Hx).
       rewrite Hit in *. cbn [snd] in *.
       destruct Hx as [(_ & _ & (now & _ & (start & Hst & _)) & _)
                      | (_ & Hm' & _)]; [congruence|].
       split; [congruence | exact Hm']. }
  7:{ destruct enabled; [discriminate He|]. clear He. cbn [event_call].
      unfold EnableTimeout. cbn [negb].
      preserve_call ltac:(cbn in *; first [assumption | tauto]). }
  all: clear He; cbn [event_call];
    preserve_event ltac:(cbn in *; assumption).
Qed.

Lemma disabled_timeout_never_fires_witness :
  mediaTimeout (mp (sys_state
    (run socket_ok srtp_ok open_ok ts_zero dtmf_ok handler_name (start port1)
       [EvSelect (CaseTick (sec 15)); EvSelect (CaseTick (sec 30));
        EvSelect (CaseTick (sec 45)); EvSelect (CaseTick (sec 60))]))) = false.
Proof.
  apply (disabled_timeout_never_fires socket_ok srtp_ok open_ok ts_zero dtmf_ok
           handler_name (start port1)
           [EvSelect (CaseTick (sec 15)); EvSelect (CaseTick (sec 30));
            EvSelect (CaseTick (sec 45)); EvSelect (CaseTick (sec 60))]).
  - vm_compute. reflexivity.
  - vm_compute. reflexivity.
  - vm_compute. reflexivity.
Defined.

(** The initial grace: a watchdog that was reset at the current value of the
    counter does not fire, while no packet is counted, at any tick whose
    clock reading is less than [MediaTimeoutInitial] after the time the
    timeout was enabled. *)
Lemma timeoutLoop_from_grace (cases : list SelectCase) :
  forall (v : WatchVars) (st : State) (start : Time),
    mediaTimeout (mp st) = false ->
    timeoutStart (mp st) = Some start ->
    startPackets v = packetCount (mp st) ->
    (forall now, In (CaseTick now) cases ->
       time_Since now start < MediaTimeoutInitial (opts (mp st))) ->
    watch_exit (timeoutLoop_from cases v st) <> WatchFired /\
    mediaTimeout (mp (snd (timeoutLoop_from cases v st))) = false.
Proof.
  induction cases as [|c rest IH]; intros v st start Hm Hs Hv Hg.
  - cbn. split; [discriminate | exact Hm].
  - destruct (timeoutLoop_iter_cases c v st Hm) as (x & v' & st' & Hit & Hx).
    pose proof (timeoutLoop_iter_start c v v' st st' x Hit Hv) as Hv'.
    destruct (timeoutLoop_iter_frame c v st) as (Hp & Hts & Ho).
    rewrite Hit in Hp, Hts, Ho. cbn [snd] in Hp, Hts, Ho.
    cbn [timeoutLoop_from]. unfold bind. rewrite !Hit. cbn [fst snd].
    destruct Hx as [(-> & _ & (now & -> & (start' & Hst & Hpc & _ & Hd)) & _)
                   | (Hne & Hm' & _ & _)].
    + exfalso. rewrite Hs in Hst. injection Hst as <-.
      destruct Hd as [Hd | Hd]; [congruence|].
      specialize (Hg now (or_introl eq_refl)). lia.
    + destruct x; [| cbn; split; [discriminate | exact Hm'] | contradiction].
      apply (IH v' st' start); try congruence.
      intros now Hin. rewrite Ho. apply Hg. right. exact Hin.
Qed.

(** X18. [EnableTimeout (true)] restarts the grace: once the watchdog has
    taken the reset that the call sent, whatever it had sampled before, it
    does not fire, while no packet is counted, at any tick whose clock
    reading is less than [MediaTimeoutInitial] after the call, however many
    ticks and further resets there are. *)
Theorem EnableTimeout_restarts_grace (cases : list SelectCase) (v : WatchVars)
  (st : State) (now t0 : Time) :
  mediaTimeout (mp st) = false ->
  (forall t, In (CaseTick t) cases ->
     time_Since t now < MediaTimeoutInitial (opts (mp st))) ->
  let st1 := snd (EnableTimeout true now st) in
  let r := timeoutLoop_from (CaseReset t0 :: cases) v st1 in
  watch_exit r <> WatchFired /\ mediaTimeout (mp (snd r)) = false.
Proof.
  intros Hm Hg st1 r. subst r.
  assert (H1 : mediaTimeout (mp st1) = false)
    by (destruct st; exact Hm).
  assert (H2 : timeoutStart (mp st1) = Some now)
    by (destruct st; reflexivity).
  assert (H3 : timeoutReset (mp st1) = true)
    by (destruct st; reflexivity).
  assert (H4 : opts (mp st1) = opts (mp st))
    by (destruct st; reflexivity).
  clearbody st1.
  assert (Hit : timeoutLoop_iter (CaseReset t0) v st1 =
                (Ret (WatchRunning,
                      mkWatchVars (lastPackets v) (packetCount (mp st1)) t0),
                 {| mp := set_timeoutReset false (mp st1);
                    world := world st1 |})).
  { unfold timeoutLoop_iter. go_unfold. rewrite H3. reflexivity. }
  cbn [timeoutLoop_from]. unfold bind. rewrite !Hit. cbn [fst snd].
  apply (timeoutLoop_from_grace cases _ _ now); cbn; try assumption.
  - reflexivity.
  - intros t Hin. rewrite H4. apply Hg. exact Hin.
Qed.

Lemma EnableTimeout_restarts_grace_witness :
  watch_exit
    (timeoutLoop_from
       [CaseReset (sec 40); CaseTick (sec 45); CaseTick (sec 60)]
       (mkWatchVars 0 7 (sec 1))
       (snd (EnableTimeout true (sec 40) port1))) <> WatchFired.
Proof.
  apply (EnableTimeout_restarts_grace [CaseTick (sec 45); CaseTick (sec 60)]
           (mkWatchVars 0 7 (sec 1)) port1 (sec 40) (sec 40)).
  - vm_compute. reflexivity.
  - intros t [H | [H | []]]; injection H as <-; vm_compute; reflexivity.
Defined.

(** A tick at which the watchdog does not fire leaves the port as it is, and
    either finds the counter it knows and keeps its variables, or samples
    the counter and the clock. *)
Lemma timeoutLoop_iter_tick_quiet (now : Time) (v v' : WatchVars)
  (st st' : State) (x : WatchExit) :
  timeoutLoop_iter (CaseTick now) v st = (Ret (x, v'), st') ->
  x <> WatchFired ->
  x = WatchRunning /\ st' = st /\
  ((packetCount (mp st) = lastPackets v /\ v' = v) \/
   v' = mkWatchVars (packetCount (mp st)) (startPackets v) now).
Proof.
  destruct st as [p w]. intros H Hx. cbn [mp] in *. revert H.
  unfold timeoutLoop_iter, timeoutCallback. go_unfold. cbn [mp world].
  destruct (decide (packetCount p <> lastPackets v)) as [Hne | Heq].
  { intros [= <- <- <-]. auto. }
  apply dec_stable in Heq. intros H.
  repeat (match type of H with
          | context [match ?y with _ => _ end] =>
              lazymatch y with
              | context [match _ with _ => _ end] => fail
              | _ => destruct y eqn:?
              end
          end; cbn in H; try discriminate H);
    injection H as <- <- <-; try contradiction; auto.
Qed.

(** A duration within range that has passed on the clock has passed for
    [time.Since] too, which saturates. *)
Lemma time_Since_ge (now t : Time) (d : Duration) :
  d <= maxDuration -> d <= now - t -> d <= time_Since now t.
Proof. unfold time_Since, Time_Sub. lia. Qed.

(** X19. Silence is detected by the second tick: with the timeout enabled
    and not yet fired, of two ticks that find the same counter, are at least
    [MediaTimeout] apart, the first not before the watchdog's last reset and
    the second past the initial grace, the watchdog fires at the second, if
    it did not at the first; packets counted before the first tick do not
    delay it. *)
Theorem silence_detected_by_second_tick (v : WatchVars) (st : State)
  (start t1 t2 : Time) :
  mediaTimeout (mp st) = false ->
  timeoutStart (mp st) = Some start ->
  MediaTimeout (opts (mp st)) <= maxDuration ->
  MediaTimeoutInitial (opts (mp st)) <= maxDuration ->
  lastTime v <= t1 ->
  MediaTimeout (opts (mp st)) <= t2 - t1 ->
  MediaTimeoutInitial (opts (mp st)) <= t2 - start ->
  let r := timeoutLoop_from [CaseTick t1; CaseTick t2] v st in
  watch_exit r = WatchFired /\
  mediaTimeout (mp (snd r)) = true /\
  count_msg msgTimeout (logs (world (snd r))) =
    (count_msg msgTimeout (logs (world st)) + 1)%nat.
Proof.
  intros Hm Hs HT HI Hl H12 Hst r. subst r.
  destruct (timeoutLoop_iter_cases (CaseTick t1) v st Hm)
    as (x1 & v1 & st1 & Hit1 & Hx1).
  cbn [timeoutLoop_from]. unfold watch_exit, bind, ret.
  rewrite Hit1. cbn [fst snd].
  destruct Hx1 as [(-> & Hm1 & _ & e & He & Hlog) | (Hne & _ & _ & _)].
  { cbn [fst snd]. rewrite Hlog, count_msg_snoc_same by exact He.
    repeat split; [exact Hm1 | lia]. }
  destruct (timeoutLoop_iter_tick_quiet t1 v v1 st st1 x1 Hit1 Hne)
    as (-> & -> & Hv1).
  assert (Hfire : tick_fires st v1 t2).
  { exists start. split; [exact Hs|].
    destruct Hv1 as [(Hpc & ->) | ->]; cbn [lastPackets startPackets lastTime];
      (split; [congruence|]);
      (split; [apply time_Since_ge; lia|]);
      right; apply time_Since_ge; lia. }
  destruct (timeoutLoop_iter_cases (CaseTick t2) v1 st Hm)
    as (x2 & v2 & st2 & Hit2 & Hx2).
  rewrite Hit2. cbn [fst snd].
  destruct Hx2 as [(-> & Hm2 & _ & e & He & Hlog) | (_ & _ & Hno & _)].
  - cbn [fst snd]. rewrite Hlog, count_msg_snoc_same by exact He.
    repeat split; [exact Hm2 | lia].
  - exfalso. exact (Hno t2 eq_refl Hfire).
Qed.

Lemma silence_detected_by_second_tick_witness :
  watch_exit (timeoutLoop_from [CaseTick (sec 15); CaseTick (sec 30)]
                watchVars0 port1_enabled) = WatchFired.
Proof.
  apply (silence_detected_by_second_tick watchVars0 port1_enabled
           (sec 0) (sec 15) (sec 30)).
  - vm_compute. reflexivity.
  - vm_compute. reflexivity.
  - vm_compute. discriminate.
  - vm_compute. discriminate.
  - vm_compute. discriminate.
  - vm_compute. discriminate.
  - vm_compute. discriminate.
Defined.

(** X20. The grace needs the reset to be taken first.  When the watchdog
    has seen packets since its last reset, the counter has not moved since
    its last sample and that sample is [MediaTimeout] old (a call on hold
    with the timeout disabled), a tick taken after [EnableTimeout (true)]
    but before the reset the call sent fires the timeout at once, however
    short the time since the call. *)
Theorem tick_before_reset_fires (v : WatchVars) (st : State) (now t : Time) :
  mediaTimeout (mp st) = false ->
  packetCount (mp st) = lastPackets v ->
  lastPackets v <> startPackets v ->
  MediaTimeout (opts (mp st)) <= maxDuration ->
  MediaTimeout (opts (mp st)) <= t - lastTime v ->
  let st1 := snd (EnableTimeout true now st) in
  let r := timeoutLoop_from [CaseTick t] v st1 in
  watch_exit r = WatchFired /\ mediaTimeout (mp (snd r)) = true.
Proof.
  intros Hm Hpc Hne HT Hl st1 r. subst r.
  assert (H1 : mediaTimeout (mp st1) = false) by (destruct st; exact Hm).
  assert (H2 : timeoutStart (mp st1) = Some now) by (destruct st; reflexivity).
  assert (H3 : packetCount (mp st1) = packetCount (mp st))
    by (destruct st; reflexivity).
  assert (H4 : opts (mp st1) = opts (mp st)) by (destruct st; reflexivity).
  clearbody st1.
  assert (Hfire : tick_fires st1 v t).
  { exists now. rewrite H3, H4. repeat split; try assumption.
    - apply time_Since_ge; assumption.
    - left. exact Hne. }
  destruct (timeoutLoop_iter_cases (CaseTick t) v st1 H1)
    as (x & v' & st' & Hit & Hx).
  cbn [timeoutLoop_from]. unfold watch_exit, bind, ret.
  rewrite Hit. cbn [fst snd].
  destruct Hx as [(-> & Hm' & _) | (_ & _ & Hno & _)].
  - cbn [fst snd]. split; [reflexivity | exact Hm'].
  - exfalso. exact (Hno t eq_refl Hfire).
Qed.

Lemma tick_before_reset_fires_witness :
  watch_exit
    (timeoutLoop_from [CaseTick (sec 100)] (mkWatchVars 5 0 (sec 20))
       (snd (EnableTimeout true (sec 100)
               {| mp := set_packetCount 5 (mp port1);
                  world := world port1 |}))) = WatchFired.
Proof.
  apply (tick_before_reset_fires (mkWatchVars 5 0 (sec 20))
           {| mp := set_packetCount 5 (mp port1); world := world port1 |}
           (sec 100) (sec 100)).
  - vm_compute. reflexivity.
  - vm_compute. reflexivity.
  - vm_compute. discriminate.
  - vm_compute. discriminate.
  - vm_compute. discriminate.
Defined.
